(** * Range-keyed transaction cache, record aggregation and date-window
    normalisation of the OpenRouter cost extension.

    Shallow embedding of
    - [src/src/extension/modules/api.ts]: the localStorage range cache
      ([getTransactionCacheKey], [getCachedDataByKey],
      [findOverlappingCachedData], [getTransactionCachedData],
      [setTransactionCachedData], [clearTransactionCache],
      [enforceCacheLimit], [clearExpiredCaches]), the DEV cache
      ([getCachedData], [setCachedData], [clearCache],
      [performPeriodicCleanup]), [calculateWindowParam] and
      [fetchActivityData];
    - [src/src/extension/modules/dataProcessor.ts]: [processOpenRouterResponse]
      and [processJSONData];
    - [src/unnamed/part_002]: the date normalisation block shared by
      [triggerAutoRefresh] and [processAndDisplayResults], and the result
      checks of [processAndDisplayResults].

    JavaScript strings are modelled as byte strings ([string]); JavaScript
    numbers as exact rationals with NaN and the infinities added. *)

From Stdlib Require Import ZArith QArith Qabs String Ascii List Bool Lia.
From Stdlib Require Import Permutation.
Import ListNotations.

Open Scope Z_scope.
Set Warnings "-register-all".


(* ------------------------------------------------------------------ *)
(** ** Characters and string helpers *)

Definition code (c : ascii) : nat := nat_of_ascii c.

Definition is_digit (c : ascii) : bool :=
  (48 <=? code c)%nat && (code c <=? 57)%nat.

Definition digit_value (c : ascii) : Z := Z.of_nat (code c) - 48.

(** Hexadecimal digit value, as used by [parseInt] after a [0x] prefix. *)
Definition hex_value (c : ascii) : option Z :=
  let n := code c in
  if (48 <=? n)%nat && (n <=? 57)%nat then Some (Z.of_nat n - 48)
  else if (97 <=? n)%nat && (n <=? 102)%nat then Some (Z.of_nat n - 87)
  else if (65 <=? n)%nat && (n <=? 70)%nat then Some (Z.of_nat n - 55)
  else None.

(** ECMAScript WhiteSpace and LineTerminator code points in the byte range
    that [trim], [parseInt] and [parseFloat] skip: TAB, LF, VT, FF, CR,
    SPACE. *)
Definition is_js_space (c : ascii) : bool :=
  match code c with
  | 9 | 10 | 11 | 12 | 13 | 32 => true
  | _ => false
  end%nat.

Fixpoint drop_spaces (l : list ascii) : list ascii :=
  match l with
  | c :: r => if is_js_space c then drop_spaces r else l
  | [] => []
  end.

(** [String.prototype.trim]. *)
Definition js_trim (s : string) : string :=
  string_of_list_ascii
    (rev (drop_spaces (rev (drop_spaces (list_ascii_of_string s))))).

(** [s.split(sep)] on a one-character separator. *)
Fixpoint split_chars (sep : ascii) (l : list ascii) : list (list ascii) :=
  match l with
  | [] => [[]]
  | c :: r =>
      if Ascii.eqb c sep then [] :: split_chars sep r
      else match split_chars sep r with
           | w :: ws => (c :: w) :: ws
           | [] => [[c]]
           end
  end.

(** [s.split(sep).pop()]: the last segment (the split is never empty). *)
Definition split_pop (sep : ascii) (s : string) : string :=
  string_of_list_ascii (last (split_chars sep (list_ascii_of_string s)) []).

(** [s.startsWith(p)]. *)
Definition starts_with (p s : string) : bool := String.prefix p s.

(** [s.includes(p)]. *)
Fixpoint includes_l (p s : list ascii) : bool :=
  match s with
  | [] => match p with [] => true | _ => false end
  | _ :: r =>
      String.prefix (string_of_list_ascii p) (string_of_list_ascii s)
      || includes_l p r
  end.

Definition includes (p s : string) : bool :=
  includes_l (list_ascii_of_string p) (list_ascii_of_string s).

(** [s.replace(p, r)] for a string pattern: only the first occurrence. *)
Fixpoint replace_first_l (p r s : list ascii) : list ascii :=
  if String.prefix (string_of_list_ascii p) (string_of_list_ascii s)
  then r ++ skipn (length p) s
  else match s with
       | [] => []
       | c :: t => c :: replace_first_l p r t
       end.

Definition replace_first (p r s : string) : string :=
  string_of_list_ascii
    (replace_first_l (list_ascii_of_string p) (list_ascii_of_string r)
       (list_ascii_of_string s)).

(* ------------------------------------------------------------------ *)
(** ** Integers to and from decimal text *)

Definition digit_char (d : N) : ascii := ascii_of_N (48 + d).

(** Least significant digit first; [fuel] bounds the number of digits. *)
Fixpoint digits_rev (fuel : nat) (n : N) : list ascii :=
  match fuel with
  | O => []
  | S f =>
      digit_char (N.modulo n 10) ::
        (if (N.div n 10 =? 0)%N then [] else digits_rev f (N.div n 10))
  end.

Definition string_of_N (n : N) : string :=
  string_of_list_ascii (rev (digits_rev (S (N.size_nat n)) n)).

(** [Number.prototype.toString()] on an integral time value (no exponent
    form below 10^21). *)
Definition string_of_Z (z : Z) : string :=
  if z <? 0 then String "-" (string_of_N (Z.abs_N z))
  else string_of_N (Z.to_N z).

(** Longest digit run in radix [r], accumulated most significant first. *)
Fixpoint scan_radix (hex : bool) (l : list ascii) (acc : Z) (seen : bool)
  : option Z :=
  match l with
  | c :: r =>
      match (if hex then hex_value c
             else if is_digit c then Some (digit_value c) else None) with
      | Some d => scan_radix hex r ((if hex then 16 else 10) * acc + d) true
      | None => if seen then Some acc else None
      end
  | [] => if seen then Some acc else None
  end.

(** [parseInt(s)] with no radix argument; [None] is NaN. *)
Definition parse_int_str (s : string) : option Z :=
  let l := drop_spaces (list_ascii_of_string s) in
  let '(neg, l) :=
    match l with
    | c :: r =>
        if Ascii.eqb c "-"%char then (true, r)
        else if Ascii.eqb c "+"%char then (false, r)
        else (false, l)
    | [] => (false, l)
    end in
  let '(hex, l) :=
    match l with
    | c :: x :: r =>
        if Ascii.eqb c "0"%char && (Ascii.eqb x "x"%char || Ascii.eqb x "X"%char)
        then (true, r) else (false, l)
    | _ => (false, l)
    end in
  option_map (fun v => if neg then - v else v) (scan_radix hex l 0 false).

(* ------------------------------------------------------------------ *)
(** ** JavaScript values *)

(** A JavaScript number: NaN, the two infinities, or a finite value (kept
    as an exact rational; binary rounding is not modelled). *)
Inductive jsnum : Type :=
| NaN
| PInf
| NInf
| Fin (q : Q).

(** A JavaScript value as produced by [JSON.parse] (plus [undefined]);
    an object is its list of own members in order. *)
Inductive jsval : Type :=
| JUndef
| JNull
| JBool (b : bool)
| JNum (n : jsnum)
| JStr (s : string)
| JArr (l : list jsval)
| JObj (m : list (string * jsval)).

(** Member lookup on an object: the last binding of a key wins, as for
    [JSON.parse] with duplicate keys. *)
Fixpoint assoc_last (k : string) (m : list (string * jsval)) : option jsval :=
  match m with
  | [] => None
  | (k', v) :: r =>
      match assoc_last k r with
      | Some w => Some w
      | None => if String.eqb k k' then Some v else None
      end
  end.

(** Property read [v.k] for the data-field names the code reads (none of
    them is an inherited property of objects, arrays or strings).  [None]
    is the TypeError thrown when [v] is [null] or [undefined]. *)
Definition get_prop (v : jsval) (k : string) : option jsval :=
  match v with
  | JUndef | JNull => None
  | JObj m => Some (match assoc_last k m with Some w => w | None => JUndef end)
  | _ => Some JUndef
  end.

Definition num_truthy (n : jsnum) : bool :=
  match n with
  | NaN => false
  | Fin q => negb (Qeq_bool q 0)
  | _ => true
  end.

(** ToBoolean. *)
Definition truthy (v : jsval) : bool :=
  match v with
  | JUndef | JNull => false
  | JBool b => b
  | JNum n => num_truthy n
  | JStr s => negb (String.eqb s EmptyString)
  | JArr _ | JObj _ => true
  end.

(** [a || b]. *)
Definition js_or (a b : jsval) : jsval := if truthy a then a else b.

(* ------------------------------------------------------------------ *)
(** ** [JSON.parse] *)

Definition dquote : ascii := ascii_of_nat 34.

Definition is_json_space (c : ascii) : bool :=
  match code c with 9 | 10 | 13 | 32 => true | _ => false end%nat.

Fixpoint skip_json_space (l : list ascii) : list ascii :=
  match l with
  | c :: r => if is_json_space c then skip_json_space r else l
  | [] => []
  end.

Fixpoint take_digits (l : list ascii) : list ascii * list ascii :=
  match l with
  | c :: r =>
      if is_digit c then let '(ds, rest) := take_digits r in (c :: ds, rest)
      else ([], l)
  | [] => ([], [])
  end.

Definition digits_value (ds : list ascii) : Z :=
  fold_left (fun acc c => 10 * acc + digit_value c) ds 0.

(** The exact value [sign * mant * 10^e]. *)
Definition decimal_Q (neg : bool) (mant e : Z) : Q :=
  let m := if neg then - mant else mant in
  if 0 <=? e then inject_Z (m * 10 ^ e) else Qmake m (Z.to_pos (10 ^ (- e))).

Definition hex4 (a b c d : ascii) : option Z :=
  match hex_value a, hex_value b, hex_value c, hex_value d with
  | Some a, Some b, Some c, Some d => Some (((a * 16 + b) * 16 + c) * 16 + d)
  | _, _, _, _ => None
  end.

(** A UTF-16 code unit written out as UTF-8 bytes (strings are byte
    strings in this model). *)
Definition utf8_of_unit (u : Z) : list ascii :=
  let b (z : Z) := ascii_of_N (Z.to_N z) in
  if u <? 128 then [b u]
  else if u <? 2048 then [b (192 + u / 64); b (128 + u mod 64)]
  else [b (224 + u / 4096); b (128 + (u / 64) mod 64); b (128 + u mod 64)].

(** Body of a JSON string literal after the opening quote. *)
Fixpoint json_string_body (fuel : nat) (l : list ascii) (acc : list ascii)
  : option (string * list ascii) :=
  match fuel with
  | O => None
  | S f =>
      match l with
      | [] => None
      | c :: r =>
          if Ascii.eqb c dquote then Some (string_of_list_ascii (rev acc), r)
          else if Ascii.eqb c "\"%char then
            match r with
            | e :: r' =>
                if Ascii.eqb e dquote then json_string_body f r' (dquote :: acc)
                else match e with
                | "\"%char | "/"%char => json_string_body f r' (e :: acc)
                | "b"%char => json_string_body f r' (ascii_of_nat 8 :: acc)
                | "f"%char => json_string_body f r' (ascii_of_nat 12 :: acc)
                | "n"%char => json_string_body f r' (ascii_of_nat 10 :: acc)
                | "r"%char => json_string_body f r' (ascii_of_nat 13 :: acc)
                | "t"%char => json_string_body f r' (ascii_of_nat 9 :: acc)
                | "u"%char =>
                    match r' with
                    | a :: b :: c :: d :: r'' =>
                        match hex4 a b c d with
                        | Some u =>
                            json_string_body f r'' (rev (utf8_of_unit u) ++ acc)
                        | None => None
                        end
                    | _ => None
                    end
                | _ => None
                end
            | [] => None
            end
          else if (code c <? 32)%nat then None
          else json_string_body f r (c :: acc)
      end
  end.

(** A JSON number token: [-? (0 | [1-9][0-9]* ) (. [0-9]+)? ([eE][+-]?[0-9]+)?]. *)
Definition json_number (l : list ascii) : option (jsval * list ascii) :=
  let '(neg, l1) :=
    match l with "-"%char :: r => (true, r) | _ => (false, l) end in
  let '(ids, l2) := take_digits l1 in
  match ids with
  | [] => None
  | d0 :: dr =>
      if Ascii.eqb d0 "0"%char && negb (Nat.eqb (length dr) 0) then None
      else
        let fr :=
          match l2 with
          | "."%char :: r =>
              let '(fds, l3) := take_digits r in
              match fds with [] => None | _ => Some (fds, l3) end
          | _ => Some ([], l2)
          end in
        match fr with
        | None => None
        | Some (fds, l3) =>
            let ex :=
              match l3 with
              | e :: r =>
                  if Ascii.eqb e "e"%char || Ascii.eqb e "E"%char then
                    let '(eneg, r1) :=
                      match r with
                      | "-"%char :: r' => (true, r')
                      | "+"%char :: r' => (false, r')
                      | _ => (false, r)
                      end in
                    let '(eds, l4) := take_digits r1 in
                    match eds with
                    | [] => None
                    | _ => Some ((if eneg then - digits_value eds
                                  else digits_value eds), l4)
                    end
                  else Some (0, l3)
              | [] => Some (0, [])
              end in
            match ex with
            | None => None
            | Some (e, l4) =>
                Some (JNum (Fin (decimal_Q neg (digits_value (ids ++ fds))
                                   (e - Z.of_nat (length fds)))), l4)
            end
        end
  end.

Fixpoint json_value (fuel : nat) (l : list ascii)
  : option (jsval * list ascii) :=
  match fuel with
  | O => None
  | S f =>
      match skip_json_space l with
      | "n"%char :: "u"%char :: "l"%char :: "l"%char :: r => Some (JNull, r)
      | "t"%char :: "r"%char :: "u"%char :: "e"%char :: r => Some (JBool true, r)
      | "f"%char :: "a"%char :: "l"%char :: "s"%char :: "e"%char :: r =>
          Some (JBool false, r)
      | "["%char :: r =>
          match skip_json_space r with
          | "]"%char :: r' => Some (JArr [], r')
          | _ =>
              match json_elements f r [] with
              | Some (vs, r') => Some (JArr vs, r')
              | None => None
              end
          end
      | "{"%char :: r =>
          match skip_json_space r with
          | "}"%char :: r' => Some (JObj [], r')
          | _ =>
              match json_members f r [] with
              | Some (ms, r') => Some (JObj ms, r')
              | None => None
              end
          end
      | c :: r =>
          if Ascii.eqb c dquote then
            match json_string_body (S (length r)) r [] with
            | Some (s, r') => Some (JStr s, r')
            | None => None
            end
          else json_number (c :: r)
      | [] => None
      end
  end
with json_elements (fuel : nat) (l : list ascii) (acc : list jsval)
  : option (list jsval * list ascii) :=
  match fuel with
  | O => None
  | S f =>
      match json_value f l with
      | Some (v, r) =>
          match skip_json_space r with
          | ","%char :: r' => json_elements f r' (v :: acc)
          | "]"%char :: r' => Some (rev (v :: acc), r')
          | _ => None
          end
      | None => None
      end
  end
with json_members (fuel : nat) (l : list ascii) (acc : list (string * jsval))
  : option (list (string * jsval) * list ascii) :=
  match fuel with
  | O => None
  | S f =>
      match skip_json_space l with
      | c :: r =>
          if Ascii.eqb c dquote then
            match json_string_body (S (length r)) r [] with
            | Some (k, r1) =>
                match skip_json_space r1 with
                | ":"%char :: r2 =>
                    match json_value f r2 with
                    | Some (v, r3) =>
                        match skip_json_space r3 with
                        | ","%char :: r4 => json_members f r4 ((k, v) :: acc)
                        | "}"%char :: r4 => Some (rev ((k, v) :: acc), r4)
                        | _ => None
                        end
                    | None => None
                    end
                | _ => None
                end
            | None => None
            end
          else None
      | [] => None
      end
  end.

(** [JSON.parse(text)]; [None] is the SyntaxError it throws.  Every nested
    call consumes at least one character, so [3 * length + 3] fuel is never
    exhausted on an input that parses. *)
Definition JSON_parse (text : string) : option jsval :=
  let l := list_ascii_of_string text in
  match json_value (3 * length l + 3) l with
  | Some (v, r) =>
      match skip_json_space r with [] => Some v | _ => None end
  | None => None
  end.

Definition json_ok (text : string) : bool :=
  match JSON_parse text with Some _ => true | None => false end.

(* ------------------------------------------------------------------ *)
(** ** [window.localStorage] *)

(** The store's items in key order ([localStorage.key(i)] and
    [Object.keys(localStorage)] enumerate them in this order; a new key is
    appended, an existing key keeps its place) and its capacity, counted in
    characters of keys and values. *)
Record storage : Type := mkStorage {
  items : list (string * string);
  quota : N
}.

Definition item_size (kv : string * string) : N :=
  N.of_nat (String.length (fst kv) + String.length (snd kv)).

Definition used (l : list (string * string)) : N :=
  fold_right (fun kv n => (item_size kv + n)%N) 0%N l.

Fixpoint lookup (k : string) (l : list (string * string)) : option string :=
  match l with
  | [] => None
  | (k', v) :: r => if String.eqb k k' then Some v else lookup k r
  end.

Fixpoint put (k v : string) (l : list (string * string))
  : list (string * string) :=
  match l with
  | [] => [(k, v)]
  | (k', v') :: r => if String.eqb k k' then (k, v) :: r else (k', v') :: put k v r
  end.

(** [localStorage.getItem(k)]. *)
Definition getItem (k : string) (st : storage) : option string :=
  lookup k (items st).

(** [localStorage.setItem(k, v)]; [None] is the QuotaExceededError it throws,
    leaving the store unchanged. *)
Definition setItem (k v : string) (st : storage) : option storage :=
  let l := put k v (items st) in
  if (used l <=? quota st)%N then Some (mkStorage l (quota st)) else None.

(** [localStorage.removeItem(k)]. *)
Definition removeItem (k : string) (st : storage) : storage :=
  mkStorage (filter (fun kv => negb (String.eqb k (fst kv))) (items st))
    (quota st).

Definition storage_keys (st : storage) : list string := map fst (items st).

(* ------------------------------------------------------------------ *)
(** ** The range-keyed transaction cache ([api.ts]) *)

Definition TRANSACTION_CACHE_PREFIX : string := "openrouter_transaction_cache_".
Definition TRANSACTION_CACHE_EXPIRY_PREFIX : string :=
  "openrouter_transaction_expiry_".
Definition TRANSACTION_CACHE_DURATION : Z := 15 * 60 * 1000.
Definition CACHE_VERSION : string := "v2".
Definition MAX_CACHE_ENTRIES : nat := 10.
Definition STORAGE_TEST_KEY : string := "__storage_test__".

(** What the cache reads from the clock: [Date.now()], and the first and
    last day of the current month as [getDateRangeKey] formats them from
    [new Date()]. *)
Record clock : Type := mkClock {
  now : Z;
  month_first : string;
  month_last : string
}.

(** A JavaScript [string | null | undefined] argument is falsy when absent
    or empty. *)
Definition str_falsy (s : option string) : bool :=
  match s with None => true | Some x => String.eqb x EmptyString end.

Definition getDateRangeKey (c : clock) (fromDate toDate : option string)
  : string :=
  let '(f, t) :=
    match fromDate, toDate with
    | Some f, Some t =>
        if str_falsy fromDate || str_falsy toDate
        then (month_first c, month_last c) else (f, t)
    | _, _ => (month_first c, month_last c)
    end in
  (f ++ "_to_" ++ t)%string.

Definition getTransactionCacheKey (c : clock) (fromDate toDate : option string)
  : string :=
  (TRANSACTION_CACHE_PREFIX ++ CACHE_VERSION ++ "_"
     ++ getDateRangeKey c fromDate toDate)%string.

(** [`${TRANSACTION_CACHE_EXPIRY_PREFIX}${CACHE_VERSION}_${cacheKey.split('_').pop()}`],
    computed identically in [getCachedDataByKey], [setTransactionCachedData],
    [clearTransactionCache] and [enforceCacheLimit]. *)
Definition expiryKeyOf (cacheKey : string) : string :=
  (TRANSACTION_CACHE_EXPIRY_PREFIX ++ CACHE_VERSION ++ "_"
     ++ split_pop "_"%char cacheKey)%string.

Definition clearTransactionCache (cacheKey : string) (st : storage) : storage :=
  removeItem (expiryKeyOf cacheKey) (removeItem cacheKey st).

(** [Date.now() > parseInt(expiry)]: false when the expiry is NaN. *)
Definition is_past (t : Z) (expiry : string) : bool :=
  match parse_int_str expiry with Some e => e <? t | None => false end.

Definition getCachedDataByKey (c : clock) (cacheKey : string) (st : storage)
  : option string * storage :=
  let expiry := getItem (expiryKeyOf cacheKey) st in
  if str_falsy expiry
     || (match expiry with Some e => is_past (now c) e | None => false end)
  then (None, clearTransactionCache cacheKey st)
  else match getItem cacheKey st with
       | Some d =>
           if String.eqb d EmptyString then (None, st)
           else if json_ok d then (Some d, st)
           else (None, clearTransactionCache cacheKey st)
       | None => (None, st)
       end.

(** The engine facilities the code relies on whose results ECMAScript leaves
    to the implementation: [Date.parse] on strings (only the ISO format is
    fixed by the standard; [None] is an Invalid Date) and
    [Number.prototype.toString] on finite numbers.  Statements quantify over
    them. *)
Record engine : Type := mkEngine {
  date_parse : string -> option Z;
  number_to_string : Q -> string
}.

(** A [Date] object is its time value; [None] is NaN (an Invalid Date).
    The relational operators compare time values and are false on NaN. *)
Definition jsdate := option Z.

Definition date_lt (a b : jsdate) : bool :=
  match a, b with Some x, Some y => x <? y | _, _ => false end.
Definition date_le (a b : jsdate) : bool :=
  match a, b with Some x, Some y => x <=? y | _, _ => false end.

(** [/_(\d{4}-\d{2}-\d{2})_to_(\d{4}-\d{2}-\d{2})$/]: the pattern has a fixed
    length of 25 characters and is anchored at the end, so it can only match
    the last 25 characters. *)
Definition key_date_range (key : string) : option (string * string) :=
  let l := list_ascii_of_string key in
  let n := length l in
  if (n <? 25)%nat then None
  else
    match skipn (n - 25) l with
    | [u1; a1; a2; a3; a4; h1; a5; a6; h2; a7; a8;
       u2; t; o; u3;
       b1; b2; b3; b4; h3; b5; b6; h4; b7; b8] =>
        let d := forallb is_digit in
        let ch (x y : ascii) := Ascii.eqb x y in
        if ch u1 "_"%char && d [a1; a2; a3; a4] && ch h1 "-"%char
           && d [a5; a6] && ch h2 "-"%char && d [a7; a8] && ch u2 "_"%char
           && ch t "t"%char && ch o "o"%char && ch u3 "_"%char
           && d [b1; b2; b3; b4] && ch h3 "-"%char && d [b5; b6]
           && ch h4 "-"%char && d [b7; b8]
        then Some (string_of_list_ascii [a1; a2; a3; a4; h1; a5; a6; h2; a7; a8],
                   string_of_list_ascii [b1; b2; b3; b4; h3; b5; b6; h4; b7; b8])
        else None
    | _ => None
    end.

(** [doesCacheCoverRange]; a requested boundary is [None] when it was not
    given ([null]) and [Some d] for a [Date] object, which is truthy even
    when invalid. *)
Definition doesCacheCoverRange (cacheFrom cacheTo : jsdate)
  (requestedFrom requestedTo : option jsdate) : bool :=
  match requestedFrom, requestedTo with
  | None, None => true
  | Some f, None => date_le cacheFrom f && date_le f cacheTo
  | None, Some t => date_le cacheFrom t && date_le t cacheTo
  | Some f, Some t => date_le cacheFrom f && date_le t cacheTo
  end.

(** [fromDate ? new Date(fromDate) : null]. *)
Definition requested_date (e : engine) (d : option string) : option jsdate :=
  match d with
  | Some s => if String.eqb s EmptyString then None else Some (date_parse e s)
  | None => None
  end.

Definition findOverlappingCachedData (e : engine)
  (fromDate toDate : option string) (st : storage) : option string :=
  let requestedFrom := requested_date e fromDate in
  let requestedTo := requested_date e toDate in
  let fix scan (ks : list string) : option string :=
    match ks with
    | [] => None
    | key :: ks' =>
        if negb (starts_with TRANSACTION_CACHE_PREFIX key) then scan ks'
        else match key_date_range key with
             | None => scan ks'
             | Some (f, t) =>
                 if doesCacheCoverRange (date_parse e f) (date_parse e t)
                      requestedFrom requestedTo
                 then match getItem key st with
                      | Some d =>
                          if String.eqb d EmptyString then scan ks' else Some d
                      | None => scan ks'
                      end
                 else scan ks'
             end
    end in
  scan (storage_keys st).

(** [getTransactionCachedData]: the exact key first, then the covering scan
    over the store as the exact lookup left it. *)
Definition getTransactionCachedData (c : clock) (e : engine)
  (fromDate toDate : option string) (st : storage) : option string * storage :=
  let exactCacheKey := getTransactionCacheKey c fromDate toDate in
  let '(exactData, st1) := getCachedDataByKey c exactCacheKey st in
  match exactData with
  | Some d => (Some d, st1)
  | None => (findOverlappingCachedData e fromDate toDate st1, st1)
  end.

(** [a.timestamp - b.timestamp] as a sort comparator; a NaN result compares
    as equal. *)
Definition cmp_timestamp (a b : option Z) : Z :=
  match a, b with Some x, Some y => x - y | _, _ => 0 end.

Fixpoint insert_by_timestamp (x : string * option Z)
  (l : list (string * option Z)) : list (string * option Z) :=
  match l with
  | [] => [x]
  | y :: r =>
      if cmp_timestamp (snd x) (snd y) <? 0 then x :: y :: r
      else y :: insert_by_timestamp x r
  end.

(** [Array.prototype.sort] is stable; with a consistent comparator every
    stable sort gives this result.  (For NaN timestamps the comparator is
    inconsistent and ECMAScript leaves the order to the implementation.) *)
Definition sort_by_timestamp (l : list (string * option Z))
  : list (string * option Z) :=
  fold_left (fun acc x => insert_by_timestamp x acc) l [].

Definition range_cache_keys (st : storage) : list string :=
  filter (fun key => starts_with TRANSACTION_CACHE_PREFIX key
                     && includes CACHE_VERSION key) (storage_keys st).

Definition enforceCacheLimit (st : storage) : storage :=
  let cacheKeys := range_cache_keys st in
  if (MAX_CACHE_ENTRIES <=? length cacheKeys)%nat then
    let entriesWithTimestamps :=
      map (fun key =>
             (key, parse_int_str
                     (match getItem (expiryKeyOf key) st with
                      | Some v => if String.eqb v EmptyString then "0" else v
                      | None => "0"
                      end%string))) cacheKeys in
    let toRemove :=
      firstn (length cacheKeys - MAX_CACHE_ENTRIES + 1)
        (sort_by_timestamp entriesWithTimestamps) in
    fold_left (fun s en => clearTransactionCache (fst en) s) toRemove st
  else st.

Definition clearExpiredCaches (c : clock) (st : storage) : storage :=
  fold_left
    (fun s key =>
       if starts_with TRANSACTION_CACHE_EXPIRY_PREFIX key then
         match getItem key s with
         | Some expiry =>
             if negb (String.eqb expiry EmptyString) && is_past (now c) expiry
             then clearTransactionCache
                    (replace_first TRANSACTION_CACHE_EXPIRY_PREFIX
                       TRANSACTION_CACHE_PREFIX key) s
             else s
         | None => s
         end
       else s)
    (storage_keys st) st.

(** The non-debug log lines [setTransactionCachedData] emits. *)
Inductive cache_log : Type :=
| LogSaveFailed          (* Logger.error('Failed to save to localStorage:') *)
| LogCached              (* Logger.cache('Successfully cached data:') *)
| LogUnexpectedError     (* Logger.warn('Unexpected error caching data:') *)
| LogQuotaCleanup        (* Logger.cache('Storage quota exceeded, attempting cleanup') *)
| LogCachedAfterCleanup  (* Logger.cache('Successfully cached after cleanup') *)
| LogFailedAfterCleanup. (* Logger.warn('Failed to cache even after cleanup:') *)

(** [setTransactionCachedData]: the final store and the log.  The only
    statements that can throw are the [setItem] calls (QuotaExceededError);
    the outer [catch] is reached only from the storage probe, because the
    inner [try] around the two writes catches their error and returns. *)
Definition setTransactionCachedData (c : clock)
  (fromDate toDate : option string) (data : string) (st : storage)
  : storage * list cache_log :=
  let cacheKey := getTransactionCacheKey c fromDate toDate in
  let expiryKey := expiryKeyOf cacheKey in
  let expiry := string_of_Z (now c + TRANSACTION_CACHE_DURATION) in
  match setItem STORAGE_TEST_KEY "test" st with
  | Some st1 =>
      let st2 := removeItem STORAGE_TEST_KEY st1 in
      match setItem cacheKey data st2 with
      | None => (st2, [LogSaveFailed])
      | Some st3 =>
          match setItem expiryKey expiry st3 with
          | None => (st3, [LogSaveFailed])
          | Some st4 => (enforceCacheLimit st4, [LogCached])
          end
      end
  | None =>
      let st1 := clearExpiredCaches c st in
      match setItem cacheKey data st1 with
      | None => (st1, [LogUnexpectedError; LogQuotaCleanup; LogFailedAfterCleanup])
      | Some st2 =>
          match setItem expiryKey expiry st2 with
          | None =>
              (st2, [LogUnexpectedError; LogQuotaCleanup; LogFailedAfterCleanup])
          | Some st3 =>
              (enforceCacheLimit st3,
               [LogUnexpectedError; LogQuotaCleanup; LogCachedAfterCleanup])
          end
      end
  end.

(* ------------------------------------------------------------------ *)
(** ** Calendar dates *)

Definition ms_per_day : Z := 86400000.

(** Days since 1970-01-01 of a proleptic Gregorian date. *)
Definition days_from_civil (y m d : Z) : Z :=
  let y' := if m <=? 2 then y - 1 else y in
  let era := y' / 400 in
  let yoe := y' - era * 400 in
  let doy := (153 * (if 2 <? m then m - 3 else m + 9) + 2) / 5 + d - 1 in
  let doe := yoe * 365 + yoe / 4 - yoe / 100 + doy in
  era * 146097 + doe - 719468.

(** The inverse: (year, month, day) of a day count. *)
Definition civil_from_days (days : Z) : Z * Z * Z :=
  let z := days + 719468 in
  let era := z / 146097 in
  let doe := z - era * 146097 in
  let yoe := (doe - doe / 1460 + doe / 36524 - doe / 146096) / 365 in
  let doy := doe - (365 * yoe + yoe / 4 - yoe / 100) in
  let mp := (5 * doy + 2) / 153 in
  let d := doy - (153 * mp + 2) / 5 + 1 in
  let m := if mp <? 10 then mp + 3 else mp - 9 in
  ((if m <=? 2 then yoe + era * 400 + 1 else yoe + era * 400), m, d).

Definition pad_digits (width : nat) (n : Z) : list ascii :=
  let l := list_ascii_of_string (string_of_N (Z.to_N n)) in
  repeat "0"%char (width - length l) ++ l.

(** [date.toISOString().split('T')[0]] for a time value in years
    0000 to 9999. *)
Definition iso_date_of (t : Z) : string :=
  let '(y, m, d) := civil_from_days (t / ms_per_day) in
  string_of_list_ascii
    (pad_digits 4 y ++ ["-"%char] ++ pad_digits 2 m ++ ["-"%char]
       ++ pad_digits 2 d).

(** [Date.parse] on the ISO date-only form [YYYY-MM-DD] (UTC midnight), the
    form the standard fixes; every other string is read as invalid.  This is
    the parser of the concrete engine used by the examples. *)
Definition iso_date_parse (s : string) : option Z :=
  match list_ascii_of_string s with
  | [y1; y2; y3; y4; h1; m1; m2; h2; d1; d2] =>
      if forallb is_digit [y1; y2; y3; y4; m1; m2; d1; d2]
         && Ascii.eqb h1 "-"%char && Ascii.eqb h2 "-"%char then
        let y := digits_value [y1; y2; y3; y4] in
        let m := digits_value [m1; m2] in
        let d := digits_value [d1; d2] in
        if (1 <=? m) && (m <=? 12) && (1 <=? d) && (d <=? 31)
        then Some (days_from_civil y m d * ms_per_day) else None
      else None
  | _ => None
  end.

(** The concrete engine of the examples; it prints integral numbers as
    JavaScript does (no example prints any other number). *)
Definition example_engine : engine :=
  mkEngine iso_date_parse
    (fun q => if (Zpos (Qden q) =? 1) then string_of_Z (Qnum q) else "NaN"%string).

(* ------------------------------------------------------------------ *)
(** ** Conversions of JavaScript values *)

Definition jsnum_to_string (e : engine) (n : jsnum) : string :=
  match n with
  | NaN => "NaN"
  | PInf => "Infinity"
  | NInf => "-Infinity"
  | Fin q => number_to_string e q
  end%string.

Fixpoint join_comma (l : list string) : string :=
  match l with
  | [] => EmptyString
  | [s] => s
  | s :: r => (s ++ "," ++ join_comma r)%string
  end.

(** ToString; an array joins its elements with [","], [null] and
    [undefined] elements giving the empty string. *)
Fixpoint to_str (e : engine) (v : jsval) : string :=
  match v with
  | JUndef => "undefined"
  | JNull => "null"
  | JBool b => if b then "true" else "false"
  | JNum n => jsnum_to_string e n
  | JStr s => s
  | JArr l =>
      join_comma
        (map (fun x => match x with
                       | JUndef | JNull => EmptyString
                       | _ => to_str e x
                       end) l)
  | JObj _ => "[object Object]"
  end%string.

Definition starts_with_l (p : string) (l : list ascii) : bool :=
  String.prefix p (string_of_list_ascii l).

(** [parseFloat] on a string: the longest StrDecimalLiteral prefix after
    leading white space. *)
Definition parse_float_str (s : string) : jsnum :=
  let l := drop_spaces (list_ascii_of_string s) in
  let '(neg, l) :=
    match l with
    | "-"%char :: r => (true, r)
    | "+"%char :: r => (false, r)
    | _ => (false, l)
    end in
  if starts_with_l "Infinity" l then (if neg then NInf else PInf)
  else
    let '(ids, l1) := take_digits l in
    let '(fds, l2) :=
      match l1 with
      | "."%char :: r => take_digits r
      | _ => ([], l1)
      end in
    match ids ++ fds with
    | [] => NaN
    | ds =>
        let ex :=
          match l2 with
          | c :: r =>
              if Ascii.eqb c "e"%char || Ascii.eqb c "E"%char then
                let '(eneg, r1) :=
                  match r with
                  | "-"%char :: r' => (true, r')
                  | "+"%char :: r' => (false, r')
                  | _ => (false, r)
                  end in
                match take_digits r1 with
                | ([], _) => 0
                | (eds, _) => if eneg then - digits_value eds else digits_value eds
                end
              else 0
          | [] => 0
          end in
        Fin (decimal_Q neg (digits_value ds) (ex - Z.of_nat (length fds)))
    end.

(** [parseFloat(v)] and [parseInt(v) || 0]. *)
Definition parseFloat (e : engine) (v : jsval) : jsnum :=
  parse_float_str (to_str e v).

Definition parseInt_or_0 (e : engine) (v : jsval) : Z :=
  match parse_int_str (to_str e v) with Some z => z | None => 0 end.

(** [new Date(v)] for one argument: a string is parsed, a number is its
    own time value (TimeClip), other primitives convert to a number, and
    objects and arrays go through their string form. *)
Definition new_Date (e : engine) (v : jsval) : jsdate :=
  match v with
  | JStr s => date_parse e s
  | JNum (Fin q) =>
      if Qle_bool (Qabs q) (inject_Z 8640000000000000)
      then Some (Z.quot (Qnum q) (Zpos (Qden q))) else None
  | JNum _ => None
  | JBool b => Some (if b then 1 else 0)
  | JNull => Some 0
  | JUndef => None
  | JArr _ | JObj _ => date_parse e (to_str e v)
  end.

Definition js_add (a b : jsnum) : jsnum :=
  match a, b with
  | NaN, _ | _, NaN => NaN
  | PInf, NInf | NInf, PInf => NaN
  | PInf, _ | _, PInf => PInf
  | NInf, _ | _, NInf => NInf
  | Fin x, Fin y => Fin (x + y)%Q
  end.

(** [n > 0]. *)
Definition js_pos (n : jsnum) : bool :=
  match n with
  | Fin q => 0 <? Qnum q
  | PInf => true
  | _ => false
  end.

Definition js_isNaN (n : jsnum) : bool :=
  match n with NaN => true | _ => false end.

(* ------------------------------------------------------------------ *)
(** ** Plain objects used as dictionaries ([Record<string, number>]) *)

(** Own property values of the running totals: a number, or the string that
    [(x || 0) + n] yields when [x] is a string, a function or an object (its
    characters are not tracked). *)
Inductive pval : Type :=
| PNum (n : jsnum)
| PText.

Definition dict := list (string * pval).

(** The properties a fresh [{}] inherits from [Object.prototype]. *)
Definition object_prototype_names : list string :=
  ["constructor"; "__defineGetter__"; "__defineSetter__"; "hasOwnProperty";
   "__lookupGetter__"; "__lookupSetter__"; "isPrototypeOf";
   "propertyIsEnumerable"; "toString"; "valueOf"; "__proto__";
   "toLocaleString"]%string.

Definition is_prototype_name (k : string) : bool :=
  existsb (String.eqb k) object_prototype_names.

Fixpoint dict_own (k : string) (d : dict) : option pval :=
  match d with
  | [] => None
  | (k', v) :: r => if String.eqb k k' then Some v else dict_own k r
  end.

(** The value read by [d[k]]. *)
Inductive rval : Type :=
| RUndef
| RNum (n : jsnum)
| RText
| RObject.  (* an inherited method or [Object.prototype] itself *)

Definition dict_get (d : dict) (k : string) : rval :=
  match dict_own k d with
  | Some (PNum n) => RNum n
  | Some PText => RText
  | None => if is_prototype_name k then RObject else RUndef
  end.

(** [(d[k] || 0) + n]. *)
Definition add_or_zero (x : rval) (n : jsnum) : pval :=
  match x with
  | RUndef => PNum (js_add (Fin 0) n)
  | RNum m => PNum (js_add (if num_truthy m then m else Fin 0) n)
  | RText | RObject => PText
  end.

Fixpoint dict_put (k : string) (v : pval) (d : dict) : dict :=
  match d with
  | [] => [(k, v)]
  | (k', v') :: r => if String.eqb k k' then (k, v) :: r else (k', v') :: dict_put k v r
  end.

(** [d[k] = v]: assigning a number to ["__proto__"] goes to the inherited
    setter, which ignores values that are not objects. *)
Definition dict_set (d : dict) (k : string) (v : pval) : dict :=
  if String.eqb k "__proto__" then d else dict_put k v d.

(* ------------------------------------------------------------------ *)
(** ** [DataProcessor] ([dataProcessor.ts]) *)

Record result : Type := mkResult {
  costs : dict;
  tokens : dict;
  totalTokens : jsnum
}.

Definition zero_result : result := mkResult [] [] (Fin 0).

(** [t.f] on a transaction already known not to be [null]/[undefined]. *)
Definition field (t : jsval) (f : string) : jsval :=
  match get_prop t f with Some v => v | None => JUndef end.

(** [t.f1 || t.f2 || ... || last]. *)
Definition first_truthy (t : jsval) (fs : list string) (last : jsval) : jsval :=
  fold_right (fun f acc => js_or (field t f) acc) last fs.

(** The first field that is neither [undefined] nor [null]. *)
Fixpoint first_non_nullish (t : jsval) (fs : list string) : option jsval :=
  match fs with
  | [] => None
  | f :: r =>
      match field t f with
      | JUndef | JNull => first_non_nullish t r
      | v => Some v
      end
  end.

(** The first field that is not [undefined] ([null] counts as present). *)
Fixpoint first_defined (t : jsval) (fs : list string) : option jsval :=
  match fs with
  | [] => None
  | f :: r =>
      match field t f with
      | JUndef => first_defined t r
      | v => Some v
      end
  end.

(** The date filter of [processJSONData]; [None] for a bound is an absent
    ([null]/[undefined]) argument, [Some d] a [Date] object. *)
Definition keep_by_date (e : engine) (fromDate toDate : option jsdate)
  (t : jsval) : bool :=
  match t with
  | JUndef | JNull => true  (* the TypeError is caught: included *)
  | _ =>
      let transactionDateStr :=
        first_truthy t ["date"; "timestamp"; "created_at"]%string
          (field t "createdAt") in
      if negb (truthy transactionDateStr) then true
      else
        match new_Date e transactionDateStr with
        | None => true
        | Some x =>
            if match fromDate with Some f => date_lt (Some x) f | None => false end
            then false
            else if match toDate with Some u => date_lt u (Some x) | None => false end
            then false
            else true
        end
  end.

Definition date_filter (e : engine) (fromDate toDate : option jsdate)
  (transactions : list jsval) : list jsval :=
  match fromDate, toDate with
  | None, None => transactions
  | _, _ => filter (keep_by_date e fromDate toDate) transactions
  end.

(** [model.split('/').pop()?.trim() || model]. *)
Definition model_key (model : string) : string :=
  let k := js_trim (split_pop "/"%char model) in
  if String.eqb k EmptyString then model else k.

(** The running state of the aggregation loop. *)
Record agg_state : Type := mkAgg {
  aggregated : dict;
  tokensPerModel : dict;
  processedItems : nat;
  skippedItems : nat;
  total : jsnum
}.

Definition skip (s : agg_state) : agg_state :=
  mkAgg (aggregated s) (tokensPerModel s) (processedItems s)
    (S (skippedItems s)) (total s).

(** One iteration of the [for] loop of [processJSONData]; a thrown
    TypeError (property read on [null]/[undefined], [split] on a model that
    is not a string) is caught and counts the record as skipped. *)
Definition process_transaction (e : engine) (s : agg_state) (t : jsval)
  : agg_state :=
  match t with
  | JUndef | JNull => skip s
  | _ =>
      let model :=
        first_truthy t ["model_permaslug"; "model"; "model_slug"; "model_name";
                        "slug"]%string (JStr "unknown") in
      let cost :=
        match first_non_nullish t ["usage"; "cost"; "total_cost"; "amount";
                                   "price"]%string with
        | Some v => parseFloat e v
        | None => Fin 0
        end in
      let tks :=
        match first_defined t ["prompt_tokens"; "tokens"; "input_tokens"]%string with
        | Some v => parseInt_or_0 e v
        | None => 0
        end in
      let completionTokens :=
        match first_defined t ["completion_tokens"; "output_tokens"]%string with
        | Some v => parseInt_or_0 e v
        | None => 0
        end in
      let totalTransactionTokens := tks + completionTokens in
      match model with
      | JStr "unknown" => skip s
      | _ =>
          if js_isNaN cost then skip s
          else
            match model with
            | JStr m =>
                let modelKey := model_key m in
                if js_pos cost || (0 <? totalTransactionTokens) then
                  mkAgg
                    (dict_set (aggregated s) modelKey
                       (add_or_zero (dict_get (aggregated s) modelKey) cost))
                    (dict_set (tokensPerModel s) modelKey
                       (add_or_zero (dict_get (tokensPerModel s) modelKey)
                          (Fin (inject_Z totalTransactionTokens))))
                    (S (processedItems s)) (skippedItems s)
                    (js_add (total s) (Fin (inject_Z totalTransactionTokens)))
                else
                  mkAgg (aggregated s) (tokensPerModel s) (S (processedItems s))
                    (skippedItems s) (total s)
            | _ => skip s  (* model.split is not a function *)
            end
      end
  end.

Definition agg_init : agg_state := mkAgg [] [] 0 0 (Fin 0).

Definition aggregate_loop (e : engine) (transactions : list jsval) : agg_state :=
  fold_left (process_transaction e) transactions agg_init.

Definition is_array (v : jsval) : bool :=
  match v with JArr _ => true | _ => false end.

(** The array [processJSONData] processes, or [None] for an invalid
    structure. *)
Definition extract_transactions (jsonData : jsval) : option (list jsval) :=
  let dat := if truthy jsonData then field jsonData "data" else JUndef in
  match dat with
  | JArr l => Some l
  | _ =>
      let dd := if truthy dat then field dat "data" else JUndef in
      match dd with
      | JArr l => Some l
      | _ => match jsonData with JArr l => Some l | _ => None end
      end
  end.

(** [processJSONData]; [None] is the RangeError thrown by
    [fromDate?.toISOString()] in its first log line when a bound is an
    Invalid Date. *)
Definition processJSONData (e : engine) (jsonData : jsval)
  (fromDate toDate : option jsdate) : option result :=
  match fromDate, toDate with
  | Some None, _ | _, Some None => None
  | _, _ =>
      match extract_transactions jsonData with
      | None => Some zero_result
      | Some [] => Some zero_result
      | Some transactions =>
          let s := aggregate_loop e (date_filter e fromDate toDate transactions) in
          Some (mkResult (aggregated s) (tokensPerModel s) (total s))
      end
  end.

(** [processOpenRouterResponse].  The statements after the inner
    [try]/[catch] (the generation-record regex scan) are unreachable: both
    branches of that [try] return or throw. *)
Definition processOpenRouterResponse (e : engine) (responseText : jsval)
  (fromDate toDate : option jsdate) : result :=
  let run v :=
    match processJSONData e v fromDate toDate with
    | Some r => r
    | None => zero_result
    end in
  match responseText with
  | JObj _ | JArr _ => run responseText
  | JStr s =>
      if String.eqb s EmptyString then zero_result
      else match JSON_parse s with
           | Some v => run v
           | None => zero_result
           end
  | _ => zero_result
  end.

(* ------------------------------------------------------------------ *)
(** ** Date-window post-processing ([part_002]) *)

(** [today = new Date(); today.setHours(23, 59, 59, 999)]: the last
    millisecond of the local calendar day of [now], for a local time
    [tz] milliseconds ahead of UTC (a fixed offset). *)
Definition end_of_local_day (now tz : Z) : Z :=
  (now + tz) / ms_per_day * ms_per_day + ms_per_day - 1 - tz.

(** The normalisation block of [triggerAutoRefresh], repeated verbatim in
    [processAndDisplayResults], given [today] as above. *)
Definition normalize_dates (e : engine) (today : Z)
  (fromDate toDate : option string) : option string * option string :=
  let toDate' :=
    if str_falsy toDate then toDate
    else match toDate with
         | Some t =>
             if date_lt (Some today) (date_parse e t)
             then Some (iso_date_of today) else toDate
         | None => toDate
         end in
  let fromDate' :=
    if str_falsy fromDate || str_falsy toDate' then fromDate
    else match fromDate, toDate' with
         | Some f, Some t =>
             if date_lt (date_parse e t) (date_parse e f) then toDate'
             else fromDate
         | _, _ => fromDate
         end in
  (fromDate', toDate').

(* ------------------------------------------------------------------ *)
(** ** The request window ([calculateWindowParam], [api.ts]) *)

(** [Math.ceil(a / b)] for a positive divisor [b], on exact values. *)
Definition ceil_div (a b : Z) : Z := - (- a / b).

(** [calculateWindowParam]; an Invalid Date makes every step NaN and the
    template prints ["NaN"]. *)
Definition calculateWindowParam (e : engine) (fromParam toParam : option string)
  : string :=
  match fromParam, toParam with
  | Some f, Some t =>
      if String.eqb f EmptyString || String.eqb t EmptyString then "1mo"
      else
        match date_parse e f, date_parse e t with
        | Some x, Some y =>
            let diffTime := Z.abs (y - x) in
            let diffDays := ceil_div diffTime ms_per_day in
            let diffMonths := ceil_div diffDays 30 in
            string_of_Z (Z.min diffMonths 12) ++ "mo"
        | _, _ => "NaNmo"
        end
  | _, _ => "1mo"
  end%string.

(* ------------------------------------------------------------------ *)
(** ** The DEV cache ([api.ts]) *)

Definition CACHE_KEY : string := "openrouter_dev_cache".
Definition CACHE_EXPIRY_KEY : string := "openrouter_dev_cache_expiry".
Definition CACHE_DURATION : Z := 30 * 60 * 1000.
Definition CACHE_CLEANUP_INTERVAL : Z := 24 * 60 * 60 * 1000.
Definition lastCleanupKey : string := "openrouter_last_cache_cleanup".

Definition clearCache (st : storage) : storage :=
  removeItem CACHE_EXPIRY_KEY (removeItem CACHE_KEY st).

(** [getCachedData]: the value returned ([None] is [null]; an empty stored
    string is returned as it is) and the store. *)
Definition getCachedData (c : clock) (st : storage) : option string * storage :=
  let expiry := getItem CACHE_EXPIRY_KEY st in
  if str_falsy expiry
     || (match expiry with Some x => is_past (now c) x | None => false end)
  then (None, clearCache st)
  else
    match getItem CACHE_KEY st with
    | Some d =>
        if String.eqb d EmptyString then (Some d, st)
        else if json_ok d then (Some d, st)
        else (None, clearCache st)
    | None => (None, st)
    end.

(** [performPeriodicCleanup]: [now - parseInt(lastCleanup) > interval] is
    false when the stored text is not a number; a failing [setItem] is
    caught. *)
Definition performPeriodicCleanup (c : clock) (st : storage) : storage :=
  let lastCleanup := getItem lastCleanupKey st in
  if str_falsy lastCleanup
     || (match lastCleanup with
         | Some l =>
             match parse_int_str l with
             | Some v => CACHE_CLEANUP_INTERVAL <? now c - v
             | None => false
             end
         | None => false
         end)
  then
    let st1 := clearExpiredCaches c st in
    match setItem lastCleanupKey (string_of_Z (now c)) st1 with
    | Some st2 => st2
    | None => st1
    end
  else st.

(** The [catch] block of [setCachedData] after a QuotaExceededError: clear
    the DEV cache and retry both writes once, in a [try] of their own. *)
Definition setCachedData_retry (c : clock) (data : string) (s : storage) : storage :=
  let expiry := string_of_Z (now c + CACHE_DURATION) in
  let s1 := clearCache s in
  match setItem CACHE_KEY data s1 with
  | None => s1
  | Some s2 =>
      match setItem CACHE_EXPIRY_KEY expiry s2 with
      | Some s3 => s3
      | None => s2
      end
  end.

(** [setCachedData]: the probe and both writes share one [try]; the only
    error they raise is QuotaExceededError. *)
Definition setCachedData (c : clock) (data : string) (st : storage) : storage :=
  let expiry := string_of_Z (now c + CACHE_DURATION) in
  match setItem STORAGE_TEST_KEY "test" st with
  | None => setCachedData_retry c data st
  | Some st1 =>
      let st2 := removeItem STORAGE_TEST_KEY st1 in
      match setItem CACHE_KEY data st2 with
      | None => setCachedData_retry c data st2
      | Some st3 =>
          match setItem CACHE_EXPIRY_KEY expiry st3 with
          | None => setCachedData_retry c data st3
          | Some st4 => performPeriodicCleanup c st4
          end
      end
  end.

(* ------------------------------------------------------------------ *)
(** ** The current-month fallback ([getDateRangeKey], [extractDefaultDateRange]) *)

(** [MakeDay(y, month, date)]: the month index is folded into the year
    first, so [month = 12] is January of the next year and [date = 0] the
    day before the first. *)
Definition make_day (y month date : Z) : Z :=
  days_from_civil (y + month / 12) (month mod 12 + 1) 1 + date - 1.

(** [new Date(y, month, date)]: local midnight, for a local time [tz]
    milliseconds ahead of UTC (a fixed offset). *)
Definition local_midnight (y month date tz : Z) : Z :=
  make_day y month date * ms_per_day - tz.

(** [firstDay = new Date(now.getFullYear(), now.getMonth(), 1)] and
    [lastDay = new Date(now.getFullYear(), now.getMonth() + 1, 0)], each
    formatted by [toISOString().split('T')[0]]; [getMonth()] is the local
    month minus one. *)
Definition month_bounds (t tz : Z) : string * string :=
  let '(y, m, _) := civil_from_days ((t + tz) / ms_per_day) in
  (iso_date_of (local_midnight y (m - 1) 1 tz),
   iso_date_of (local_midnight y m 0 tz)).

(** The clock [getDateRangeKey] reads at time [t] in a zone [tz]
    milliseconds ahead of UTC. *)
Definition clock_at (t tz : Z) : clock :=
  let '(f, l) := month_bounds t tz in mkClock t f l.

(* ------------------------------------------------------------------ *)
(** ** [fetchActivityData] ([api.ts]) *)

(** What [fetch] gives: a rejection (network failure) with its message, or
    a response with its status, status text and body text. *)
Inductive http_reply : Type :=
| FetchRejected (message : string)
| Reply (status : Z) (statusText body : string).

(** A completed call: the value returned or the message of the error thrown. *)
Inductive outcome : Type :=
| Returned (text : string)
| Thrown (message : string).

(** [response.ok]. *)
Definition response_ok (status : Z) : bool := (200 <=? status) && (status <=? 299).

(** The error thrown for a response that is not ok. *)
Definition http_error_message (status : Z) (statusText errorText : string) : string :=
  (if Z.eqb status 401 then "Authentication required. Please log in to OpenRouter."
  else if Z.eqb status 403 then
    "Access forbidden. You might not have permission to view this data."
  else if Z.eqb status 404 then
    "API endpoint not found. The service might be temporarily unavailable."
  else if Z.eqb status 429 then
    "Too many requests. Please wait a moment before trying again."
  else if Z.leb 500 status then "Server error. Please try again later."
  else "HTTP " ++ string_of_Z status ++ ": " ++ statusText ++ ". " ++ errorText)%string.

(** [typeof v === 'object']. *)
Definition is_object_value (v : jsval) : bool :=
  match v with JNull | JArr _ | JObj _ => true | _ => false end.

(** [fetchActivityData(fromParam, toParam)] with [DEV_MODE] = [dev]: the
    [window] parameter of the request it sends ([None] when it sends none),
    the final store and the outcome.  [c] is the clock of the cache checks,
    [c'] that of the writes after the response. *)
Definition fetchActivityData (e : engine) (dev : bool) (c c' : clock)
  (fromParam toParam : option string) (st : storage) (reply : http_reply)
  : option string * storage * outcome :=
  let windowParam := calculateWindowParam e fromParam toParam in
  let '(cachedData, st1) := getTransactionCachedData c e fromParam toParam st in
  let clear (s : storage) :=
    clearTransactionCache (getTransactionCacheKey c fromParam toParam) s in
  let cache_step : string + storage :=
    match cachedData with
    | Some d =>
        if String.eqb d EmptyString then inr st1
        else match JSON_parse d with
             | Some v =>
                 if truthy v && is_object_value v then inl d else inr (clear st1)
             | None => inr (clear st1)
             end
    | None => inr st1
    end in
  match cache_step with
  | inl d => (None, st1, Returned d)
  | inr st2 =>
      let dev_step : (string * storage) + storage :=
        if dev then
          let '(devCachedData, st3) := getCachedData c st2 in
          match devCachedData with
          | Some d =>
              if String.eqb d EmptyString then inr st3
              else if json_ok d then inl (d, st3) else inr (clearCache st3)
          | None => inr st3
          end
        else inr st2 in
      match dev_step with
      | inl (d, st3) => (None, st3, Returned d)
      | inr st4 =>
          match reply with
          | FetchRejected msg => (Some windowParam, st4, Thrown msg)
          | Reply status statusText body =>
              if response_ok status then
                let st5 := fst (setTransactionCachedData c' fromParam toParam body st4) in
                let st6 := if dev then setCachedData c' body st5 else st5 in
                (Some windowParam, st6, Returned body)
              else
                (Some windowParam, st4, Thrown (http_error_message status statusText body))
          end
      end
  end.

(* ------------------------------------------------------------------ *)
(** ** [processAndDisplayResults] ([part_002]) *)

(** The array index a property key denotes (a canonical decimal below
    [2^32 - 1]), if any. *)
Definition array_index (s : string) : option Z :=
  match list_ascii_of_string s with
  | [] => None
  | ["0"%char] => Some 0
  | "0"%char :: _ => None
  | l =>
      if forallb is_digit l then
        let v := digits_value l in if v <? 4294967295 then Some v else None
      else None
  end.

Fixpoint insert_index (x : Z * pval) (l : list (Z * pval)) : list (Z * pval) :=
  match l with
  | [] => [x]
  | y :: r => if fst x <? fst y then x :: y :: r else y :: insert_index x r
  end.

(** [Object.values(d)]: array-index keys in ascending order, then the other
    keys in creation order. *)
Definition object_values (d : dict) : list pval :=
  map snd
    (fold_left (fun acc kv =>
                  match array_index (fst kv) with
                  | Some i => insert_index (i, snd kv) acc
                  | None => acc
                  end) d [])
  ++ map snd (filter (fun kv => match array_index (fst kv) with
                                | Some _ => false
                                | None => true
                                end) d).

(** The accumulator of [reduce((sum, cost) => sum + cost, 0)]: a number, or
    a string once a string has been added. *)
Inductive sum_acc : Type :=
| SNum (n : jsnum)
| SText.

Definition add_value (a : sum_acc) (v : pval) : sum_acc :=
  match a, v with
  | SNum x, PNum y => SNum (js_add x y)
  | _, _ => SText
  end.

Definition total_cost (d : dict) : sum_acc :=
  fold_left add_value (object_values d) (SNum (Fin 0)).

(** What [processAndDisplayResults] ends in: a [MessageHandler.sendError]
    message, or [MessageHandler.sendResult(costs)] followed by
    [UIManager.displayResults(costs, totalCost, totalTokens, tokens)]. *)
Inductive display_outcome : Type :=
| SendError (message : string)
| DisplayResults (costs : dict) (totalCost totalTokens : jsnum) (tokens : dict).

Definition msg_empty_response : string :=
  "The API returned an empty response. Please try again in a few minutes.".
Definition msg_invalid_format : string :=
  "The API returned an invalid response format. Please try again.".
Definition msg_no_transactions : string :=
  "No transaction data found for the selected date range. Please try a different date range or try again later.".
Definition msg_processing_failed : string := "Failed to process auto-refresh data: ".
Definition msg_no_cost_data : string :=
  "No cost data found in the transaction data. This might indicate an issue with the data format.".
Definition msg_total_cost : string := "Failed to calculate total cost from the data".

(** [processAndDisplayResults(responseData, fromDate, toDate)] given the end
    of the current local day [today]; the errors thrown after processing are
    caught and sent with the prefix [msg_processing_failed]. *)
Definition processAndDisplayResults (e : engine) (today : Z) (responseData : jsval)
  (fromDate toDate : option string) : display_outcome :=
  let '(fromDate', toDate') := normalize_dates e today fromDate toDate in
  if negb (truthy responseData) then SendError msg_empty_response
  else
    match responseData with
    | JObj _ | JArr _ =>
        match match extract_transactions responseData with
              | Some l => l
              | None => []
              end with
        | [] => SendError msg_no_transactions
        | _ :: _ =>
            let r := processOpenRouterResponse e responseData
                       (requested_date e fromDate') (requested_date e toDate') in
            match costs r with
            | [] => SendError (msg_processing_failed ++ msg_no_cost_data)%string
            | _ :: _ =>
                match total_cost (costs r) with
                | SNum n =>
                    if js_isNaN n
                    then SendError (msg_processing_failed ++ msg_total_cost)%string
                    else DisplayResults (costs r) n (totalTokens r) (tokens r)
                | SText => SendError (msg_processing_failed ++ msg_total_cost)%string
                end
            end
        end
    | _ => SendError msg_invalid_format
    end.


(* ------------------------------------------------------------------ *)
(** ** Readings of the specification, stated independently of the code *)

(** [v.k] on a parsed payload: an own member of an object, [undefined]
    otherwise. *)
Definition member (v : jsval) (k : string) : jsval :=
  match v with
  | JObj m => match assoc_last k m with Some w => w | None => JUndef end
  | _ => JUndef
  end.

(** The date fields of a record, in priority order. *)
Definition date_fields : list string :=
  ["date"; "timestamp"; "created_at"; "createdAt"]%string.

(** The inclusion rule of the date filter given a choice of the field a
    record's date is read from: no such field or an unparseable date keeps
    the record; otherwise it is dropped exactly when it lies strictly
    before [fromDate] or strictly after [toDate]. *)
Definition keep_by_field (e : engine) (fromDate toDate : option jsdate)
  (t : jsval) (pick : option string) : bool :=
  match t with
  | JUndef | JNull => true
  | _ =>
      match pick with
      | None => true
      | Some f =>
          match new_Date e (field t f) with
          | None => true
          | Some x =>
              negb (match fromDate with Some d => date_lt (Some x) d | None => false end)
              && negb (match toDate with Some d => date_lt d (Some x) | None => false end)
          end
      end
  end.

(** The date read from the first present (defined, non-null) field. *)
Definition first_present_keep (e : engine) (fromDate toDate : option jsdate)
  (t : jsval) : bool :=
  keep_by_field e fromDate toDate t
    (find (fun f => match field t f with JUndef | JNull => false | _ => true end)
       date_fields).

(** The date read from the first truthy field. *)
Definition first_truthy_keep (e : engine) (fromDate toDate : option jsdate)
  (t : jsval) : bool :=
  keep_by_field e fromDate toDate t (find (fun f => truthy (field t f)) date_fields).

(* ------------------------------------------------------------------ *)
(** ** Example inputs *)

Definition ex_clock : clock := mkClock 2000 "2024-03-01" "2024-03-31".

Definition ex_year_key : string :=
  getTransactionCacheKey ex_clock (Some "2024-01-01"%string) (Some "2024-12-31"%string).

(** A whole-year entry whose expiry time (1000) has passed at [now] = 2000. *)
Definition ex_expired_store : storage :=
  mkStorage [(ex_year_key, "{}"%string); (expiryKeyOf ex_year_key, "1000"%string)]
    100000.

(** A record with a model, a [usage] cost and [prompt_tokens]. *)
Definition ex_record (model usage promptTokens : string) : jsval :=
  JObj [("model", JStr model); ("usage", JStr usage);
        ("prompt_tokens", JStr promptTokens)]%string.

(** 2024-03-11T01:00:00Z, i.e. 20:00 on 2024-03-10 at UTC-5. *)
Definition ex_now : Z := 1710118800000.
Definition ex_tz : Z := -18000000.

(** A store holding the range 2024-01-15 to 2024-01-31. *)
Definition ex_range2_store : storage :=
  fst (setTransactionCachedData ex_clock (Some "2024-01-15"%string)
         (Some "2024-01-31"%string) "[]" (mkStorage [] 100000)).

(** A record whose [date] field is present but empty, with a [timestamp]. *)
Definition ex_dated_record : jsval :=
  JObj [("date", JStr EmptyString); ("timestamp", JStr "2024-01-15")]%string.

(** A store holding nine range entries, 2024-01-01 to 2024-01-09 each
    ending on 2024-01-31, with their shared expiry record. *)
Definition ex_same_end_store : storage :=
  mkStorage
    (app (map (fun d => (getTransactionCacheKey ex_clock (Some ("2024-01-0" ++ d))
                           (Some "2024-01-31"), "[]"))
              ["1"; "2"; "3"; "4"; "5"; "6"; "7"; "8"; "9"])
         [(expiryKeyOf (getTransactionCacheKey ex_clock (Some "2024-01-01")
                          (Some "2024-01-31")), "900000")])%string
    100000.

(** A store holding ten range entries, 2024-01-10 to 2024-01-19, each
    ending on 2024-02-01. *)
Definition ex_full_store : storage :=
  mkStorage
    (map (fun d => (getTransactionCacheKey ex_clock (Some ("2024-01-1" ++ d))
                      (Some "2024-02-01"), "[]"))
         ["0"; "1"; "2"; "3"; "4"; "5"; "6"; "7"; "8"; "9"])%string
    100000.

(* ------------------------------------------------------------------ *)
(** ** Auxiliary definitions of the proofs *)

(** One step of reading decimal digits, most significant first. *)
Definition dec_step (acc : Z) (c : ascii) : Z := 10 * acc + digit_value c.

(** The filter of [range_cache_keys]. *)
Definition range_key_p (key : string) : bool :=
  starts_with TRANSACTION_CACHE_PREFIX key && includes CACHE_VERSION key.

(** The test [model === 'unknown'] on the extracted model. *)
Definition is_unknown (v : jsval) : bool :=
  match v with JStr m => String.eqb m "unknown" | _ => false end.

(** The fields [processJSONData] reads the model from, in order. *)
Definition model_fields : list string :=
  ["model_permaslug"; "model"; "model_slug"; "model_name"; "slug"]%string.

(** A date text of the shape [YYYY-MM-DD] (ASCII digits). *)
Definition iso_shape (s : string) : bool :=
  match list_ascii_of_string s with
  | [a1; a2; a3; a4; h1; a5; a6; h2; a7; a8] =>
      forallb is_digit [a1; a2; a3; a4] && Ascii.eqb h1 "-"%char
      && forallb is_digit [a5; a6] && Ascii.eqb h2 "-"%char
      && forallb is_digit [a7; a8]
  | _ => false
  end.

Ltac split_bools :=
  repeat match goal with
  | H : (_ && _) = true |- _ => apply andb_prop in H as [? ?]
  | H : Ascii.eqb _ _ = true |- _ => apply Ascii.eqb_eq in H; subst
  end.

(* ------------------------------------------------------------------ *)
(** * Lemmas *)

(** ** Decimal text of integers *)

Lemma pos_lt_size_nat (p : positive) :
  Zpos p < 2 ^ Z.of_nat (Pos.size_nat p).
Proof.
  induction p as [p IH | p IH |]; simpl Pos.size_nat;
    rewrite ?Nat2Z.inj_succ, ?Z.pow_succ_r by lia; lia.
Qed.

Lemma digit_value_char (d : N) : (d < 10)%N -> digit_value (digit_char d) = Z.of_N d.
Proof.
  intros Hd. unfold digit_value, digit_char, code, nat_of_ascii.
  rewrite N_ascii_embedding by lia. lia.
Qed.

Lemma is_digit_char (d : N) : (d < 10)%N -> is_digit (digit_char d) = true.
Proof.
  intros Hd. unfold is_digit, digit_char, code, nat_of_ascii.
  rewrite N_ascii_embedding by lia.
  apply andb_true_intro; split; apply Nat.leb_le; lia.
Qed.

Lemma digits_rev_spec (f : nat) (n : N) :
  (0 < f)%nat -> (Z.of_N n < 2 ^ Z.of_nat f) ->
  Forall (fun c => is_digit c = true) (digits_rev f n) /\
  digits_rev f n <> [] /\
  fold_left dec_step (rev (digits_rev f n)) 0 = Z.of_N n.
Proof.
  revert n; induction f as [|f IH]; intros n Hf Hn.
  - lia.
  - assert (Hm : (n mod 10 < 10)%N) by (apply N.mod_lt; lia).
    cbn [digits_rev].
    destruct (N.eqb_spec (n / 10) 0) as [H0|H0].
    + split; [constructor; [apply is_digit_char; lia | constructor]|].
      split; [discriminate|].
      simpl. unfold dec_step. rewrite digit_value_char by lia.
      pose proof (N.div_mod n 10 ltac:(lia)). rewrite H0 in H. lia.
    + assert (Hq : Z.of_N (n / 10) < 2 ^ Z.of_nat f).
      { rewrite Nat2Z.inj_succ, Z.pow_succ_r in Hn by lia.
        rewrite N2Z.inj_div. apply Z.div_lt_upper_bound; lia. }
      assert (Hf' : (0 < f)%nat).
      { destruct f; [|lia]. exfalso. apply H0. apply N2Z.inj.
        change (2 ^ Z.of_nat 0) with 1 in Hq.
        pose proof (N2Z.is_nonneg (n / 10)). simpl. lia. }
      destruct (IH _ Hf' Hq) as (Hall & Hne & Hv).
      split; [constructor; [apply is_digit_char; lia | exact Hall]|].
      split; [discriminate|].
      simpl rev. rewrite fold_left_app, Hv. simpl. unfold dec_step.
      rewrite digit_value_char by lia.
      pose proof (N.div_mod n 10 ltac:(lia)). lia.
Qed.

Lemma scan_radix_digits (l : list ascii) (acc : Z) (seen : bool) :
  Forall (fun c => is_digit c = true) l ->
  scan_radix false l acc seen =
    if seen || negb (match l with [] => true | _ => false end)
    then Some (fold_left dec_step l acc) else None.
Proof.
  revert acc seen; induction l as [|c l IH]; intros acc seen Hall.
  - destruct seen; reflexivity.
  - inversion Hall as [|? ? Hc Hl]; subst. simpl. rewrite Hc.
    rewrite IH by exact Hl. rewrite orb_true_l. destruct seen; reflexivity.
Qed.

Lemma digit_not (c d : ascii) : is_digit c = true -> is_digit d = false -> Ascii.eqb c d = false.
Proof.
  intros Hc Hd. destruct (Ascii.eqb_spec c d); [subst; congruence | reflexivity].
Qed.

Lemma string_of_N_digits (n : N) :
  exists c D, list_ascii_of_string (string_of_N n) = c :: D /\
    Forall (fun c => is_digit c = true) (c :: D) /\
    fold_left dec_step (c :: D) 0 = Z.of_N n.
Proof.
  unfold string_of_N. rewrite list_ascii_of_string_of_list_ascii.
  assert (Hb : Z.of_N n < 2 ^ Z.of_nat (S (N.size_nat n))).
  { destruct n as [|p]; [simpl; lia|].
    pose proof (pos_lt_size_nat p).
    rewrite Nat2Z.inj_succ, Z.pow_succ_r by lia. simpl N.size_nat.
    simpl Z.of_N. lia. }
  destruct (digits_rev_spec (S (N.size_nat n)) n ltac:(lia) Hb) as (Hall & Hne & Hv).
  destruct (rev (digits_rev (S (N.size_nat n)) n)) as [|c D] eqn:E.
  - apply (f_equal (@rev ascii)) in E. rewrite rev_involutive in E. simpl in E. congruence.
  - exists c, D. split; [reflexivity|]. split; [|exact Hv].
    rewrite <- E. apply Forall_rev. exact Hall.
Qed.

Lemma no_hex_prefix {A} (c : ascii) (D : list ascii) (f : bool -> list ascii -> A) :
  Forall (fun c => is_digit c = true) (c :: D) ->
  (let '(hex, l) :=
    match D with
    | [] => (false, c :: D)
    | x :: r =>
        if Ascii.eqb c "0"%char && (Ascii.eqb x "x"%char || Ascii.eqb x "X"%char)
        then (true, r)
        else (false, c :: D)
    end in f hex l) = f false (c :: D).
Proof.
  intros Hall. destruct D as [|x r]; [reflexivity|].
  inversion Hall as [|? ? _ Hx]; inversion Hx as [|? ? Hxd _]; subst.
  rewrite (digit_not x "x"%char), (digit_not x "X"%char) by (reflexivity || exact Hxd).
  rewrite andb_false_r. reflexivity.
Qed.

Lemma parse_int_string_of_Z (z : Z) : parse_int_str (string_of_Z z) = Some z.
Proof.
  unfold string_of_Z.
  destruct (Z.ltb_spec z 0) as [Hneg|Hpos].
  - destruct (string_of_N_digits (Z.abs_N z)) as (c & D & HL & Hall & Hv).
    unfold parse_int_str. simpl list_ascii_of_string. rewrite HL.
    cbn [drop_spaces].
    replace (is_js_space "-"%char) with false by reflexivity.
    replace (Ascii.eqb "-"%char "-"%char) with true by reflexivity.
    rewrite (no_hex_prefix c D (fun hex l => option_map (fun v : Z => - v) (scan_radix hex l 0 false)) Hall).
    rewrite scan_radix_digits by exact Hall. cbn [orb negb option_map]. f_equal. rewrite Hv. lia.
  - destruct (string_of_N_digits (Z.to_N z)) as (c & D & HL & Hall & Hv).
    unfold parse_int_str. rewrite HL.
    inversion Hall as [|? ? Hc _]; subst.
    assert (Hsp : is_js_space c = false).
    { unfold is_digit in Hc. apply andb_prop in Hc as [H1 H2].
      apply Nat.leb_le in H1, H2. unfold is_js_space.
      destruct (code c) as [|[|[|[|[|[|[|[|[|[|[|[|[|[|[|[|[|[|[|[|[|[|[|[|[|[|[|[|[|[|[|[|[|m]]]]]]]]]]]]]]]]]]]]]]]]]]]]]]]]];
        try lia; reflexivity. }
    cbn [drop_spaces]. rewrite Hsp.
    rewrite (digit_not c "-"%char), (digit_not c "+"%char) by (reflexivity || exact Hc).
    rewrite (no_hex_prefix c D (fun hex l => option_map (fun v : Z => v) (scan_radix hex l 0 false)) Hall).
    rewrite scan_radix_digits by exact Hall. cbn [orb negb option_map]. f_equal. rewrite Hv. lia.
Qed.

(** ** localStorage *)

Lemma string_of_Z_nonempty (z : Z) : String.eqb (string_of_Z z) EmptyString = false.
Proof.
  unfold string_of_Z. destruct (z <? 0); [reflexivity|].
  destruct (string_of_N_digits (Z.to_N z)) as (c & D & HL & _).
  destruct (string_of_N (Z.to_N z)); [discriminate|reflexivity].
Qed.

Lemma lookup_put_same k v l : lookup k (put k v l) = Some v.
Proof.
  induction l as [|[k' v'] r IH]; simpl.
  - rewrite String.eqb_refl. reflexivity.
  - destruct (String.eqb k k') eqn:E; simpl; [rewrite String.eqb_refl; reflexivity|].
    rewrite E. exact IH.
Qed.

Lemma lookup_put_other k k' v l :
  k' <> k -> lookup k' (put k v l) = lookup k' l.
Proof.
  intros Hne. induction l as [|[k0 v0] r IH]; simpl.
  - destruct (String.eqb_spec k' k); [congruence|reflexivity].
  - destruct (String.eqb_spec k k0) as [->|]; simpl.
    + destruct (String.eqb_spec k' k0); [congruence|reflexivity].
    + rewrite IH. reflexivity.
Qed.

Lemma setItem_lookup_same k v st st' :
  setItem k v st = Some st' -> getItem k st' = Some v.
Proof.
  unfold setItem, getItem. destruct (_ <=? _)%N; intros H; inversion H; subst.
  apply lookup_put_same.
Qed.

Lemma setItem_lookup_other k k' v st st' :
  k' <> k -> setItem k v st = Some st' -> getItem k' st' = getItem k' st.
Proof.
  unfold setItem, getItem. intros Hne. destruct (_ <=? _)%N; intros H; inversion H; subst.
  apply lookup_put_other; exact Hne.
Qed.

Lemma lookup_removeItem k k' st :
  getItem k' (removeItem k st) = if String.eqb k k' then None else getItem k' st.
Proof.
  unfold getItem, removeItem; simpl. induction (items st) as [|[k0 v0] r IH]; simpl.
  - destruct (String.eqb k k'); reflexivity.
  - destruct (String.eqb_spec k k0) as [->|Hk0]; simpl.
    + rewrite IH. destruct (String.eqb_spec k0 k') as [->|]; [reflexivity|].
      destruct (String.eqb_spec k' k0); [congruence|reflexivity].
    + rewrite IH. destruct (String.eqb_spec k' k0) as [->|]; [|reflexivity].
      destruct (String.eqb_spec k k0); [congruence|reflexivity].
Qed.

(** ** Counting range entries *)

Lemma range_cache_keys_eq st :
  range_cache_keys st = filter range_key_p (map fst (items st)).
Proof. reflexivity. Qed.

Lemma count_put k v l :
  (length (filter range_key_p (map fst (put k v l)))
   <= (if range_key_p k then 1 else 0) + length (filter range_key_p (map fst l)))%nat.
Proof.
  induction l as [|[k0 v0] r IH]; cbn [put map fst filter].
  - destruct (range_key_p k); cbn [length]; lia.
  - destruct (String.eqb_spec k k0) as [->|]; cbn [map fst filter].
    + destruct (range_key_p k0); cbn [length]; lia.
    + destruct (range_key_p k0); cbn [length]; lia.
Qed.

Lemma count_setItem k v st st' :
  setItem k v st = Some st' ->
  (length (range_cache_keys st')
   <= (if range_key_p k then 1 else 0) + length (range_cache_keys st))%nat.
Proof.
  unfold setItem. destruct (_ <=? _)%N; intros H; inversion H; subst.
  rewrite !range_cache_keys_eq. apply count_put.
Qed.

Lemma count_removeItem k st :
  (length (range_cache_keys (removeItem k st)) <= length (range_cache_keys st))%nat.
Proof.
  rewrite !range_cache_keys_eq. unfold removeItem; cbn [items].
  induction (items st) as [|[k0 v0] r IH]; cbn [filter map fst]; [lia|].
  destruct (negb (String.eqb k k0)); cbn [filter map fst];
    destruct (range_key_p k0); cbn [length]; lia.
Qed.

Lemma count_clearTransactionCache k st :
  (length (range_cache_keys (clearTransactionCache k st)) <= length (range_cache_keys st))%nat.
Proof.
  unfold clearTransactionCache.
  pose proof (count_removeItem (expiryKeyOf k) (removeItem k st)).
  pose proof (count_removeItem k st). lia.
Qed.

Lemma count_clearExpiredCaches c st :
  (length (range_cache_keys (clearExpiredCaches c st)) <= length (range_cache_keys st))%nat.
Proof.
  unfold clearExpiredCaches. generalize (storage_keys st). intros ks.
  revert st; induction ks as [|k ks IH]; intros st; cbn [fold_left]; [lia|].
  etransitivity; [apply IH|].
  destruct (starts_with _ k); [|lia].
  destruct (getItem k st); [|lia].
  destruct (_ && _); [apply count_clearTransactionCache|lia].
Qed.

Lemma enforceCacheLimit_small st :
  (length (range_cache_keys st) < MAX_CACHE_ENTRIES)%nat -> enforceCacheLimit st = st.
Proof.
  intros H. unfold enforceCacheLimit.
  destruct (Nat.leb_spec MAX_CACHE_ENTRIES (length (range_cache_keys st))); [lia|reflexivity].
Qed.

Lemma range_key_p_expiry k : range_key_p (expiryKeyOf k) = false.
Proof. reflexivity. Qed.

Lemma range_key_p_probe : range_key_p STORAGE_TEST_KEY = false.
Proof. reflexivity. Qed.

Lemma cache_key_ne_expiry c f t k : getTransactionCacheKey c f t <> expiryKeyOf k.
Proof.
  intros H. apply (f_equal (String.get 23)) in H. discriminate H.
Qed.

(** ** Writes and reads of the range cache *)

Lemma setTransactionCachedData_stores c fromDate toDate data st st' log :
  setTransactionCachedData c fromDate toDate data st = (st', log) ->
  In LogCached log \/ In LogCachedAfterCleanup log ->
  (length (range_cache_keys st) <= 8)%nat ->
  getItem (getTransactionCacheKey c fromDate toDate) st' = Some data /\
  getItem (expiryKeyOf (getTransactionCacheKey c fromDate toDate)) st'
    = Some (string_of_Z (now c + TRANSACTION_CACHE_DURATION)).
Proof.
  unfold setTransactionCachedData.
  set (k := getTransactionCacheKey c fromDate toDate).
  set (x := string_of_Z (now c + TRANSACTION_CACHE_DURATION)).
  intros Hset Hlog Hcount.
  assert (Hne : k <> expiryKeyOf k) by apply cache_key_ne_expiry.
  destruct (setItem STORAGE_TEST_KEY "test" st) as [st1|] eqn:E1.
  - pose proof (count_setItem _ _ _ _ E1) as C1. rewrite range_key_p_probe in C1.
    pose proof (count_removeItem STORAGE_TEST_KEY st1) as C2.
    destruct (setItem k data (removeItem STORAGE_TEST_KEY st1)) as [st3|] eqn:E3;
      [|inversion Hset; subst; simpl in Hlog; intuition discriminate].
    destruct (setItem (expiryKeyOf k) x st3) as [st4|] eqn:E4;
      [|inversion Hset; subst; simpl in Hlog; intuition discriminate].
    inversion Hset; subst st' log.
    pose proof (count_setItem _ _ _ _ E3) as C3.
    pose proof (count_setItem _ _ _ _ E4) as C4. rewrite range_key_p_expiry in C4.
    rewrite enforceCacheLimit_small
      by (unfold MAX_CACHE_ENTRIES; destruct (range_key_p k); lia).
    split.
    + rewrite (setItem_lookup_other _ _ _ _ _ Hne E4). exact (setItem_lookup_same _ _ _ _ E3).
    + exact (setItem_lookup_same _ _ _ _ E4).
  - pose proof (count_clearExpiredCaches c st) as C1.
    destruct (setItem k data (clearExpiredCaches c st)) as [st2|] eqn:E2;
      [|inversion Hset; subst; simpl in Hlog; intuition discriminate].
    destruct (setItem (expiryKeyOf k) x st2) as [st3|] eqn:E3;
      [|inversion Hset; subst; simpl in Hlog; intuition discriminate].
    inversion Hset; subst st' log.
    pose proof (count_setItem _ _ _ _ E2) as C2.
    pose proof (count_setItem _ _ _ _ E3) as C3. rewrite range_key_p_expiry in C3.
    rewrite enforceCacheLimit_small
      by (unfold MAX_CACHE_ENTRIES; destruct (range_key_p k); lia).
    split.
    + rewrite (setItem_lookup_other _ _ _ _ _ Hne E3). exact (setItem_lookup_same _ _ _ _ E2).
    + exact (setItem_lookup_same _ _ _ _ E3).
Qed.

Lemma getTransactionCacheKey_clock c c' fromDate toDate :
  month_first c' = month_first c -> month_last c' = month_last c ->
  getTransactionCacheKey c' fromDate toDate = getTransactionCacheKey c fromDate toDate.
Proof.
  intros H1 H2. unfold getTransactionCacheKey, getDateRangeKey. rewrite H1, H2. reflexivity.
Qed.

Lemma getCachedDataByKey_fresh c k st d x :
  getItem (expiryKeyOf k) st = Some (string_of_Z x) ->
  now c <= x ->
  getItem k st = Some d -> json_ok d = true ->
  fst (getCachedDataByKey c k st) = Some d.
Proof.
  intros Hx Hnow Hd Hj. unfold getCachedDataByKey. rewrite Hx.
  unfold str_falsy, is_past. rewrite string_of_Z_nonempty, parse_int_string_of_Z.
  destruct (Z.ltb_spec x (now c)); [lia|]. cbn [orb]. rewrite Hd.
  destruct (String.eqb_spec d EmptyString) as [->|]; [discriminate Hj|].
  rewrite Hj. reflexivity.
Qed.

(** ** Last segment of a split *)

Lemma split_chars_nonempty sep l : split_chars sep l <> [].
Proof.
  destruct l as [|c r]; simpl; [discriminate|].
  destruct (Ascii.eqb c sep); [discriminate|]. destruct (split_chars sep r); discriminate.
Qed.

Lemma split_chars_app sep l1 l2 :
  exists w ws, split_chars sep (l1 ++ sep :: l2) = w :: ws ++ split_chars sep l2.
Proof.
  induction l1 as [|c r IH]; simpl.
  - rewrite Ascii.eqb_refl. exists [], []. reflexivity.
  - destruct IH as (w & ws & E). rewrite E. destruct (Ascii.eqb c sep).
    + exists [], (w :: ws). reflexivity.
    + exists (c :: w), ws. reflexivity.
Qed.

Lemma last_app_nonempty {A} (l m : list A) (d : A) : m <> [] -> last (l ++ m) d = last m d.
Proof.
  intros Hm. induction l as [|a l IH]; [reflexivity|].
  rewrite <- app_comm_cons. simpl. rewrite IH.
  destruct (l ++ m) eqn:E; [apply app_eq_nil in E; tauto | reflexivity].
Qed.

Lemma split_pop_app sep l1 l2 :
  last (split_chars sep (l1 ++ sep :: l2)) [] = last (split_chars sep l2) [].
Proof.
  destruct (split_chars_app sep l1 l2) as (w & ws & ->).
  rewrite app_comm_cons. apply last_app_nonempty, split_chars_nonempty.
Qed.

Lemma list_ascii_of_string_app (s1 s2 : string) :
  list_ascii_of_string (s1 ++ s2) = list_ascii_of_string s1 ++ list_ascii_of_string s2.
Proof. induction s1 as [|a s1 IH]; simpl; [reflexivity|]. rewrite IH. reflexivity. Qed.

Lemma expiryKeyOf_range c f t :
  String.eqb f EmptyString = false -> String.eqb t EmptyString = false ->
  expiryKeyOf (getTransactionCacheKey c (Some f) (Some t))
  = (TRANSACTION_CACHE_EXPIRY_PREFIX ++ CACHE_VERSION ++ "_"
       ++ string_of_list_ascii (last (split_chars "_"%char (list_ascii_of_string t)) []))%string.
Proof.
  intros Hf Ht. unfold expiryKeyOf, split_pop, getTransactionCacheKey, getDateRangeKey.
  cbn [str_falsy]. rewrite Hf, Ht. cbn [orb].
  rewrite !list_ascii_of_string_app.
  change (list_ascii_of_string "_to_") with (["_"%char; "t"%char; "o"%char] ++ "_"%char :: []).
  rewrite <- (app_assoc _ ["_"%char]). cbn [app]. rewrite !app_assoc.
  rewrite split_pop_app.
  exact (f_equal (fun l => (TRANSACTION_CACHE_EXPIRY_PREFIX ++ CACHE_VERSION ++ "_" ++ string_of_list_ascii l)%string)
           (split_pop_app "_"%char ["t"%char; "o"%char] (list_ascii_of_string t))).
Qed.

Lemma split_chars_no_sep sep l :
  forallb (fun ch => negb (Ascii.eqb ch sep)) l = true -> split_chars sep l = [l].
Proof.
  induction l as [|c r IH]; simpl; [reflexivity|].
  intros H. apply andb_prop in H as [Hc Hr].
  destruct (Ascii.eqb c sep); [discriminate Hc|]. rewrite IH by exact Hr. reflexivity.
Qed.

Lemma split_pop_last_segment sep (p seg : string) :
  forallb (fun ch => negb (Ascii.eqb ch sep)) (list_ascii_of_string seg) = true ->
  split_pop sep (p ++ String sep seg) = seg.
Proof.
  intros H. unfold split_pop. rewrite list_ascii_of_string_app. simpl.
  rewrite split_pop_app, split_chars_no_sep by exact H. simpl.
  apply string_of_list_ascii_of_string.
Qed.

(** ** Payload structure *)

Lemma truthy_field_member v k :
  (if truthy v then field v k else JUndef) = member v k.
Proof.
  destruct v as [| |b|n|s|l|m]; try reflexivity.
  - destruct b; reflexivity.
  - simpl. destruct (num_truthy n); reflexivity.
  - simpl. destruct (negb (String.eqb s EmptyString)); reflexivity.
Qed.

Lemma extract_transactions_member v :
  is_array v = false -> is_array (member v "data") = false ->
  is_array (member (member v "data") "data") = false ->
  extract_transactions v = None.
Proof.
  intros H1 H2 H3. unfold extract_transactions. cbv zeta.
  rewrite !truthy_field_member.
  remember (member v "data") as d1 eqn:E1.
  remember (member d1 "data") as d2 eqn:E2.
  destruct d1; try discriminate H2; destruct d2; try discriminate H3;
    destruct v; try discriminate H1; reflexivity.
Qed.

Lemma run_zero e v fromDate toDate :
  extract_transactions v = None ->
  match processJSONData e v fromDate toDate with Some r => r | None => zero_result end
  = zero_result.
Proof.
  intros H. unfold processJSONData.
  destruct fromDate as [[|]|], toDate as [[|]|]; try reflexivity; rewrite H; reflexivity.
Qed.

(** ** The date filter *)

Lemma keep_by_date_first_truthy e fromDate toDate t :
  keep_by_date e fromDate toDate t = first_truthy_keep e fromDate toDate t.
Proof.
  destruct t; try reflexivity;
    unfold keep_by_date, first_truthy_keep, keep_by_field, first_truthy, date_fields;
    cbn [fold_right find]; unfold js_or;
    repeat match goal with
           | |- context [truthy (field ?t ?f)] =>
               let E := fresh "E" in destruct (truthy (field t f)) eqn:E; cbn iota
           end;
    cbn [negb]; try reflexivity;
    destruct (new_Date _ _); try reflexivity;
    destruct fromDate, toDate; cbn [negb andb];
    repeat match goal with |- context [date_lt ?a ?b] => destruct (date_lt a b) end;
    first [reflexivity | congruence].
Qed.

Lemma first_truthy_keep_unbounded e t : first_truthy_keep e None None t = true.
Proof.
  unfold first_truthy_keep, keep_by_field.
  destruct t; try reflexivity;
    destruct (find _ _); try reflexivity; destruct (new_Date _ _); reflexivity.
Qed.

(** ** Expiry records *)

Lemma clearTransactionCache_removes k st :
  getItem k (clearTransactionCache k st) = None.
Proof.
  unfold clearTransactionCache. rewrite !lookup_removeItem, String.eqb_refl.
  destruct (String.eqb _ k); reflexivity.
Qed.

(* ------------------------------------------------------------------ *)
(** * The claims *)

(** C1 (refuted, a defect of the code): an entry whose expiry time has
    passed is still returned by a cache read.  In [ex_expired_store] the
    whole-year entry expired at 1000 and the clock reads 2000: the exact-key
    path ([getCachedDataByKey]) treats it as expired, but for the March
    range the covering scan ([findOverlappingCachedData]), which never reads
    expiry records, returns its payload from [getTransactionCachedData]. *)
Theorem expired_entry_served_by_overlap_scan :
  is_past (now ex_clock) "1000" = true /\
  fst (getCachedDataByKey ex_clock ex_year_key ex_expired_store) = None /\
  fst (getTransactionCachedData ex_clock example_engine
         (Some "2024-03-01"%string) (Some "2024-03-31"%string) ex_expired_store)
  = Some "{}"%string.
Proof.
  split; [|split]; vm_compute; reflexivity.
Qed.

(** C2 (refuted, a defect of the code): when the storage probe fits but the
    write of the payload raises QuotaExceededError, [setTransactionCachedData]
    logs [LogSaveFailed] and returns: no cleanup pass and no retry. *)
Theorem write_quota_error_skips_cleanup (c : clock) (fromDate toDate : option string)
  (data : string) (st st1 : storage) :
  setItem STORAGE_TEST_KEY "test" st = Some st1 ->
  setItem (getTransactionCacheKey c fromDate toDate) data
    (removeItem STORAGE_TEST_KEY st1) = None ->
  setTransactionCachedData c fromDate toDate data st
  = (removeItem STORAGE_TEST_KEY st1, [LogSaveFailed]).
Proof.
  intros H1 H2. unfold setTransactionCachedData. cbv zeta.
  rewrite H1, H2. reflexivity.
Qed.

Lemma write_quota_error_skips_cleanup_witness :
  setTransactionCachedData ex_clock (Some "2024-01-01"%string)
    (Some "2024-01-31"%string) "{}" (mkStorage [] 30)
  = (removeItem STORAGE_TEST_KEY (mkStorage [(STORAGE_TEST_KEY, "test"%string)] 30),
     [LogSaveFailed]).
Proof.
  apply write_quota_error_skips_cleanup; vm_compute; reflexivity.
Defined.

(** C3 (corrected): the example aggregates to [costs["gpt-4"] = 2],
    [tokens["gpt-4"] = 150] and [totalTokens = 150];
    ["anthropic/claude-3-opus"] aggregates under ["claude-3-opus"]; and in
    general a model identifier [p/seg] with no ['/'] in [seg] is keyed by
    [seg] trimmed of white space, or by the whole identifier when that is
    blank. *)
Theorem model_key_after_last_slash :
  (let r := processOpenRouterResponse example_engine
              (JArr [ex_record "openai/gpt-4" "1.5" "100";
                     ex_record "openai/gpt-4" "0.5" "50"]) None None in
   match dict_own "gpt-4" (costs r) with
   | Some (PNum (Fin q)) => (q == 2)%Q
   | _ => False
   end /\
   dict_own "gpt-4" (tokens r) = Some (PNum (Fin 150)) /\
   totalTokens r = Fin 150) /\
  costs (processOpenRouterResponse example_engine
           (JArr [ex_record "anthropic/claude-3-opus" "1" "10"]) None None)
  = [("claude-3-opus"%string, PNum (Fin 1))] /\
  (forall p seg : string,
     forallb (fun ch => negb (Ascii.eqb ch "/"%char)) (list_ascii_of_string seg) = true ->
     model_key (p ++ "/" ++ seg)
     = if String.eqb (js_trim seg) EmptyString then (p ++ "/" ++ seg)%string
       else js_trim seg).
Proof.
  split; [|split].
  - vm_compute. split; [reflexivity|split; reflexivity].
  - vm_compute. reflexivity.
  - intros p seg H. unfold model_key.
    change ("/" ++ seg)%string with (String "/" seg).
    rewrite split_pop_last_segment by exact H. reflexivity.
Qed.

Lemma model_key_after_last_slash_witness :
  model_key "openai/ gpt-4 " = "gpt-4"%string.
Proof.
  exact (proj2 (proj2 model_key_after_last_slash) "openai"%string " gpt-4 "%string eq_refl).
Defined.

(** C3, counterexample: for ["openai/"] the substring after the final ['/']
    is empty, and the record aggregates under ["openai/"] itself. *)
Lemma model_key_blank_segment_cex :
  split_pop "/"%char "openai/" = EmptyString /\
  costs (processOpenRouterResponse example_engine
           (JArr [ex_record "openai/" "1" "10"]) None None)
  = [("openai/"%string, PNum (Fin 1))].
Proof.
  split; vm_compute; reflexivity.
Qed.

(** C4 (confirmed): a string that [JSON.parse] rejects, and a payload (a
    parsed string or an object given directly) with no array at the top
    level, under [data] or under [data.data], aggregate to the zero result;
    [processOpenRouterResponse] is total, it returns a [result] for every
    input and bounds. *)
Theorem malformed_payload_gives_zero_result (e : engine)
  (fromDate toDate : option jsdate) :
  (forall s, JSON_parse s = None ->
     processOpenRouterResponse e (JStr s) fromDate toDate = zero_result) /\
  (forall v, is_array v = false -> is_array (member v "data") = false ->
     is_array (member (member v "data") "data") = false ->
     (forall s, JSON_parse s = Some v ->
        processOpenRouterResponse e (JStr s) fromDate toDate = zero_result) /\
     match v with
     | JStr _ => True
     | _ => processOpenRouterResponse e v fromDate toDate = zero_result
     end).
Proof.
  split.
  - intros s H. unfold processOpenRouterResponse. cbv beta iota zeta.
    destruct (String.eqb s EmptyString); [reflexivity|]. rewrite H. reflexivity.
  - intros v H1 H2 H3.
    pose proof (extract_transactions_member v H1 H2 H3) as Hx. split.
    + intros s Hs. unfold processOpenRouterResponse. cbv beta iota zeta.
      destruct (String.eqb s EmptyString); [reflexivity|]. rewrite Hs.
      apply run_zero; exact Hx.
    + destruct v; try exact I; try reflexivity;
        unfold processOpenRouterResponse; cbv beta iota zeta; apply run_zero; exact Hx.
Qed.

Lemma malformed_payload_gives_zero_result_witness :
  processOpenRouterResponse example_engine (JStr "oops") None None = zero_result /\
  processOpenRouterResponse example_engine (JStr "{}") None None = zero_result /\
  processOpenRouterResponse example_engine (JObj [("data", JNull)]%string) None None
  = zero_result.
Proof.
  destruct (malformed_payload_gives_zero_result example_engine None None) as [A B].
  split; [apply A; vm_compute; reflexivity|split].
  - apply (proj1 (B (JObj []) eq_refl eq_refl eq_refl)). vm_compute. reflexivity.
  - exact (proj2 (B (JObj [("data", JNull)]%string) eq_refl eq_refl eq_refl)).
Defined.

(** C5 (corrected): the date filter reads a record's date from the first
    truthy field of [date], [timestamp], [created_at], [createdAt]; a
    [null] record, a record with no such field and a record whose date does
    not parse are kept; any other record is dropped exactly when its date is
    strictly before [fromDate] or strictly after [toDate]; with no bound
    nothing is dropped. *)
Theorem date_filter_first_truthy (e : engine) (fromDate toDate : option jsdate)
  (transactions : list jsval) :
  date_filter e fromDate toDate transactions
  = filter (first_truthy_keep e fromDate toDate) transactions.
Proof.
  assert (Hall : filter (first_truthy_keep e fromDate toDate) transactions
                 = filter (keep_by_date e fromDate toDate) transactions).
  { apply filter_ext. intros t. symmetry. apply keep_by_date_first_truthy. }
  rewrite Hall. unfold date_filter.
  destruct fromDate, toDate; try reflexivity.
  rewrite <- Hall. clear Hall. induction transactions as [|t r IH]; [reflexivity|].
  simpl. rewrite first_truthy_keep_unbounded, <- IH. reflexivity.
Qed.

(** C5, counterexample: with [fromDate] = 2024-02-01, a record whose
    [date] is present but empty and whose [timestamp] is 2024-01-15 is
    dropped; read from the first present field it has no date and would be
    kept. *)
Lemma date_filter_first_present_cex :
  date_filter example_engine (Some (iso_date_parse "2024-02-01")) None
    [ex_dated_record] = [] /\
  filter (first_present_keep example_engine (Some (iso_date_parse "2024-02-01")) None)
    [ex_dated_record] = [ex_dated_record].
Proof.
  split; vm_compute; reflexivity.
Qed.

(** C6 (refuted, a defect of the code): a record with a negative cost and
    positive tokens is added to the cost mapping, which then decreases and
    becomes negative: two [gpt-4] records with [usage] "1" and "-2" (10
    prompt tokens each) leave [costs["gpt-4"]] at 1 and then at -1. *)
Theorem negative_cost_decreases_total :
  dict_own "gpt-4" (aggregated (aggregate_loop example_engine
                                  [ex_record "gpt-4" "1" "10"]))
  = Some (PNum (Fin 1)) /\
  dict_own "gpt-4" (aggregated (aggregate_loop example_engine
                                  [ex_record "gpt-4" "1" "10";
                                   ex_record "gpt-4" "-2" "10"]))
  = Some (PNum (Fin (-1))) /\
  costs (processOpenRouterResponse example_engine
           (JArr [ex_record "gpt-4" "1" "10"; ex_record "gpt-4" "-2" "10"]) None None)
  = [("gpt-4"%string, PNum (Fin (-1)))].
Proof.
  split; [|split]; vm_compute; reflexivity.
Qed.

(** C7 (corrected): after a [setTransactionCachedData] whose two writes
    (payload and expiry record) succeed, which the log reports as cached,
    of a payload that is valid JSON, into a store holding at most 8 range
    entries (so that the entry limit evicts nothing), a
    [getTransactionCachedData] of the same range returns the payload
    unchanged, at any time up to the expiry time [now +
    TRANSACTION_CACHE_DURATION] and in the same calendar month. *)
Theorem cache_round_trip (c c' : clock) (e : engine)
  (fromDate toDate : option string) (data : string) (st st' : storage)
  (log : list cache_log) :
  setTransactionCachedData c fromDate toDate data st = (st', log) ->
  In LogCached log \/ In LogCachedAfterCleanup log ->
  (length (range_cache_keys st) <= 8)%nat ->
  json_ok data = true ->
  month_first c' = month_first c -> month_last c' = month_last c ->
  now c' <= now c + TRANSACTION_CACHE_DURATION ->
  fst (getTransactionCachedData c' e fromDate toDate st') = Some data.
Proof.
  intros Hset Hlog Hcount Hj Hm1 Hm2 Hnow.
  destruct (setTransactionCachedData_stores _ _ _ _ _ _ _ Hset Hlog Hcount) as [Hd Hx].
  unfold getTransactionCachedData. rewrite (getTransactionCacheKey_clock c c' _ _ Hm1 Hm2).
  pose proof (getCachedDataByKey_fresh c' _ _ _ _ Hx Hnow Hd Hj) as Hg.
  destruct (getCachedDataByKey c' _ st') as [r st1]. simpl in Hg. subst r. reflexivity.
Qed.

Lemma cache_round_trip_witness :
  fst (getTransactionCachedData ex_clock example_engine
         (Some "2024-01-01"%string) (Some "2024-01-31"%string)
         (fst (setTransactionCachedData ex_clock (Some "2024-01-01"%string)
                 (Some "2024-01-31"%string) "{}" (mkStorage [] 100000))))
  = Some "{}"%string.
Proof.
  apply (cache_round_trip ex_clock ex_clock example_engine _ _ "{}" (mkStorage [] 100000) _
           (snd (setTransactionCachedData ex_clock (Some "2024-01-01"%string)
                   (Some "2024-01-31"%string) "{}" (mkStorage [] 100000)))).
  - apply surjective_pairing.
  - left. vm_compute. left. reflexivity.
  - vm_compute. lia.
  - vm_compute. reflexivity.
  - reflexivity.
  - reflexivity.
  - vm_compute. discriminate.
Defined.

(** C7, counterexample: two writes that succeed ([LogCached]) and are
    not read back.  (1) The payload ["oops"] is not valid JSON, and an
    immediate read of the same range misses, because [getCachedDataByKey]
    discards a cached value that does not parse.  (2) Writing ["{}"] for
    2024-01-10 to 2024-01-31 into [ex_same_end_store] makes ten range
    entries; [enforceCacheLimit] then clears the oldest, 2024-01-01 to
    2024-01-31, together with the expiry record all these ranges share,
    so the immediate read of 2024-01-10 to 2024-01-31 misses the exact
    entry and the covering scan returns another entry's ["[]"]. *)
Lemma cache_round_trip_non_json_cex :
  (snd (setTransactionCachedData ex_clock (Some "2024-01-01"%string)
          (Some "2024-01-31"%string) "oops" (mkStorage [] 100000)) = [LogCached] /\
   fst (getTransactionCachedData ex_clock example_engine
          (Some "2024-01-01"%string) (Some "2024-01-31"%string)
          (fst (setTransactionCachedData ex_clock (Some "2024-01-01"%string)
                  (Some "2024-01-31"%string) "oops" (mkStorage [] 100000)))) = None) /\
  (snd (setTransactionCachedData ex_clock (Some "2024-01-10"%string)
          (Some "2024-01-31"%string) "{}" ex_same_end_store) = [LogCached] /\
   fst (getTransactionCachedData ex_clock example_engine
          (Some "2024-01-10"%string) (Some "2024-01-31"%string)
          (fst (setTransactionCachedData ex_clock (Some "2024-01-10"%string)
                  (Some "2024-01-31"%string) "{}" ex_same_end_store))) = Some "[]"%string).
Proof.
  split; split; vm_compute; reflexivity.
Qed.

(** C8 (refuted, a defect of the code): the clamp of a future [to]
    replaces it with [today.toISOString().split('T')[0]], the UTC date of
    the end of the local day.  At 20:00 on 2024-03-10 at UTC-5 that end is
    04:59:59.999 UTC on 2024-03-11, so a future [to] becomes
    "2024-03-11", the day after the local current date 2024-03-10. *)
Lemma normalize_dates_utc_date_cex :
  normalize_dates example_engine (end_of_local_day ex_now ex_tz)
    (Some "2024-03-01"%string) (Some "2030-01-01"%string)
  = (Some "2024-03-01"%string, Some "2024-03-11"%string) /\
  iso_date_of (ex_now + ex_tz) = "2024-03-10"%string.
Proof.
  split; vm_compute; reflexivity.
Qed.

(** C9 (refuted, a defect of the code): a record whose model key is
    ["__proto__"] adds its 5 tokens to [totalTokens], but the assignment
    [tokensPerModel["__proto__"] = ...] sets the prototype, not a
    property: the token mapping stays empty, its sum 0. *)
Theorem proto_model_total_mismatch :
  processOpenRouterResponse example_engine
    (JArr [ex_record "__proto__" "1" "5"]) None None
  = mkResult [] [] (Fin 5).
Proof.
  vm_compute. reflexivity.
Qed.

(** C10 (confirmed): the expiry record of a range depends only on its [to]
    date.  For two ranges with the same [to] (all boundaries non-empty):
    their expiry keys coincide; a successful [setTransactionCachedData] of
    one sets the other's expiry record to its own expiry time; and
    [clearTransactionCache] of one removes the other's expiry record, after
    which [getCachedDataByKey] of the other misses and deletes its data. *)
Theorem shared_expiry_record (c c' : clock) (f1 f2 t data : string)
  (st st' st0 : storage) (log : list cache_log) :
  String.eqb f1 EmptyString = false -> String.eqb f2 EmptyString = false ->
  String.eqb t EmptyString = false ->
  expiryKeyOf (getTransactionCacheKey c (Some f1) (Some t))
  = expiryKeyOf (getTransactionCacheKey c (Some f2) (Some t)) /\
  (setTransactionCachedData c (Some f1) (Some t) data st = (st', log) ->
   In LogCached log \/ In LogCachedAfterCleanup log ->
   (length (range_cache_keys st) <= 8)%nat ->
   getItem (expiryKeyOf (getTransactionCacheKey c (Some f2) (Some t))) st'
   = Some (string_of_Z (now c + TRANSACTION_CACHE_DURATION))) /\
  getItem (expiryKeyOf (getTransactionCacheKey c (Some f2) (Some t)))
    (clearTransactionCache (getTransactionCacheKey c (Some f1) (Some t)) st0) = None /\
  fst (getCachedDataByKey c' (getTransactionCacheKey c (Some f2) (Some t))
         (clearTransactionCache (getTransactionCacheKey c (Some f1) (Some t)) st0))
  = None /\
  getItem (getTransactionCacheKey c (Some f2) (Some t))
    (snd (getCachedDataByKey c' (getTransactionCacheKey c (Some f2) (Some t))
            (clearTransactionCache (getTransactionCacheKey c (Some f1) (Some t)) st0)))
  = None.
Proof.
  intros Hf1 Hf2 Ht.
  assert (HE : expiryKeyOf (getTransactionCacheKey c (Some f1) (Some t))
               = expiryKeyOf (getTransactionCacheKey c (Some f2) (Some t)))
    by (rewrite !expiryKeyOf_range by assumption; reflexivity).
  set (k1 := getTransactionCacheKey c (Some f1) (Some t)) in *.
  set (k2 := getTransactionCacheKey c (Some f2) (Some t)) in *.
  assert (Hnone : getItem (expiryKeyOf k2) (clearTransactionCache k1 st0) = None).
  { unfold clearTransactionCache. rewrite lookup_removeItem, HE, String.eqb_refl.
    reflexivity. }
  split; [exact HE|]. split; [|split; [exact Hnone|]].
  - intros Hset Hlog Hcount. rewrite <- HE.
    exact (proj2 (setTransactionCachedData_stores _ _ _ _ _ _ _ Hset Hlog Hcount)).
  - unfold getCachedDataByKey. rewrite Hnone. cbn [str_falsy orb fst snd].
    split; [reflexivity|]. apply clearTransactionCache_removes.
Qed.

Lemma shared_expiry_record_witness :
  expiryKeyOf (getTransactionCacheKey ex_clock (Some "2024-01-01"%string) (Some "2024-01-31"%string))
  = expiryKeyOf (getTransactionCacheKey ex_clock (Some "2024-01-15"%string) (Some "2024-01-31"%string)) /\
  (setTransactionCachedData ex_clock (Some "2024-01-01"%string) (Some "2024-01-31"%string) "[]"
     (mkStorage [] 100000)
   = (fst (setTransactionCachedData ex_clock (Some "2024-01-01"%string) (Some "2024-01-31"%string)
             "[]" (mkStorage [] 100000)), [LogCached]) ->
   In LogCached [LogCached] \/ In LogCachedAfterCleanup [LogCached] ->
   (length (range_cache_keys (mkStorage [] 100000)) <= 8)%nat ->
   getItem (expiryKeyOf (getTransactionCacheKey ex_clock (Some "2024-01-15"%string) (Some "2024-01-31"%string)))
     (fst (setTransactionCachedData ex_clock (Some "2024-01-01"%string) (Some "2024-01-31"%string)
             "[]" (mkStorage [] 100000)))
   = Some (string_of_Z (now ex_clock + TRANSACTION_CACHE_DURATION))) /\
  getItem (expiryKeyOf (getTransactionCacheKey ex_clock (Some "2024-01-15"%string) (Some "2024-01-31"%string)))
    (clearTransactionCache (getTransactionCacheKey ex_clock (Some "2024-01-01"%string) (Some "2024-01-31"%string))
       ex_range2_store) = None /\
  fst (getCachedDataByKey ex_clock (getTransactionCacheKey ex_clock (Some "2024-01-15"%string) (Some "2024-01-31"%string))
         (clearTransactionCache (getTransactionCacheKey ex_clock (Some "2024-01-01"%string) (Some "2024-01-31"%string))
            ex_range2_store)) = None /\
  getItem (getTransactionCacheKey ex_clock (Some "2024-01-15"%string) (Some "2024-01-31"%string))
    (snd (getCachedDataByKey ex_clock (getTransactionCacheKey ex_clock (Some "2024-01-15"%string) (Some "2024-01-31"%string))
            (clearTransactionCache (getTransactionCacheKey ex_clock (Some "2024-01-01"%string) (Some "2024-01-31"%string))
               ex_range2_store))) = None.
Proof.
  apply (shared_expiry_record ex_clock ex_clock "2024-01-01" "2024-01-15" "2024-01-31" "[]"
           (mkStorage [] 100000)); reflexivity.
Defined.

(* ------------------------------------------------------------------ *)
(** * Further properties of the code *)

(** ** Prefixes and [replace] *)

Lemma prefix_app (p x : string) : String.prefix p (p ++ x) = true.
Proof.
  induction p as [|a p IH]; simpl; [destruct x; reflexivity|].
  destruct (ascii_dec a a) as [_|n]; [exact IH|congruence].
Qed.

Lemma prefix_app_inv (p s : string) : String.prefix p s = true -> exists x, s = (p ++ x)%string.
Proof.
  revert s; induction p as [|a p IH]; intros s H; simpl.
  - exists s. reflexivity.
  - destruct s as [|b s]; simpl in H; [discriminate H|].
    destruct (ascii_dec a b) as [->|]; [|discriminate H].
    destruct (IH s H) as (x & ->). exists x. reflexivity.
Qed.

Lemma string_of_list_ascii_app (l m : list ascii) :
  string_of_list_ascii (l ++ m) = (string_of_list_ascii l ++ string_of_list_ascii m)%string.
Proof. induction l as [|a l IH]; simpl; [reflexivity|]. rewrite IH. reflexivity. Qed.

Lemma replace_first_l_eq (p r s : list ascii) :
  replace_first_l p r s =
  if String.prefix (string_of_list_ascii p) (string_of_list_ascii s)
  then r ++ skipn (length p) s
  else match s with [] => [] | c :: t => c :: replace_first_l p r t end.
Proof. destruct s; reflexivity. Qed.

Lemma replace_first_app (p r x : string) :
  replace_first p r (p ++ x) = (r ++ x)%string.
Proof.
  unfold replace_first. rewrite replace_first_l_eq, !string_of_list_ascii_of_string, prefix_app.
  rewrite list_ascii_of_string_app, skipn_app, Nat.sub_diag, skipn_all. cbn [app skipn].
  rewrite string_of_list_ascii_app, !string_of_list_ascii_of_string. reflexivity.
Qed.

(** ** Keys the cleanup passes remove *)

Lemma getItem_clearTransactionCache_other k k' st :
  k' <> k -> k' <> expiryKeyOf k ->
  getItem k' (clearTransactionCache k st) = getItem k' st.
Proof.
  intros H1 H2. unfold clearTransactionCache. rewrite !lookup_removeItem.
  destruct (String.eqb_spec (expiryKeyOf k) k'); [congruence|].
  destruct (String.eqb_spec k k'); [congruence|reflexivity].
Qed.

Lemma prefix_expiryKeyOf k :
  String.prefix "openrouter_transaction_" (expiryKeyOf k) = true.
Proof. reflexivity. Qed.

Lemma prefix_cache_key x :
  String.prefix "openrouter_transaction_" (TRANSACTION_CACHE_PREFIX ++ x) = true.
Proof. reflexivity. Qed.

(** One step of the [clearExpiredCaches] loop removes, if anything, the
    data key [TRANSACTION_CACHE_PREFIX ++ x] of an expiry key
    [TRANSACTION_CACHE_EXPIRY_PREFIX ++ x], and an expiry key. *)
Lemma clearExpiredCaches_step_other c key s k :
  (forall x, key = (TRANSACTION_CACHE_EXPIRY_PREFIX ++ x)%string ->
             k <> (TRANSACTION_CACHE_PREFIX ++ x)%string) ->
  String.prefix TRANSACTION_CACHE_EXPIRY_PREFIX k = false ->
  getItem k
    (if starts_with TRANSACTION_CACHE_EXPIRY_PREFIX key then
       match getItem key s with
       | Some expiry =>
           if negb (String.eqb expiry EmptyString) && is_past (now c) expiry
           then clearTransactionCache
                  (replace_first TRANSACTION_CACHE_EXPIRY_PREFIX TRANSACTION_CACHE_PREFIX key) s
           else s
       | None => s
       end
     else s) = getItem k s.
Proof.
  intros Hk Hpre. unfold starts_with.
  destruct (String.prefix TRANSACTION_CACHE_EXPIRY_PREFIX key) eqn:Ep; [|reflexivity].
  destruct (prefix_app_inv _ _ Ep) as (x & ->).
  destruct (getItem _ s); [|reflexivity].
  destruct (_ && _); [|reflexivity].
  rewrite replace_first_app. apply getItem_clearTransactionCache_other.
  - exact (Hk x eq_refl).
  - intros ->. unfold expiryKeyOf in Hpre. rewrite prefix_app in Hpre. discriminate Hpre.
Qed.

Lemma clearExpiredCaches_other c st k :
  (forall x, In (TRANSACTION_CACHE_EXPIRY_PREFIX ++ x)%string (storage_keys st) ->
             k <> (TRANSACTION_CACHE_PREFIX ++ x)%string) ->
  String.prefix TRANSACTION_CACHE_EXPIRY_PREFIX k = false ->
  getItem k (clearExpiredCaches c st) = getItem k st.
Proof.
  intros Hk Hpre. unfold clearExpiredCaches. revert Hk.
  generalize (storage_keys st) as ks. intros ks Hk. revert st.
  induction ks as [|key ks IH]; intros s; cbn [fold_left]; [reflexivity|].
  rewrite IH by (intros x Hx; apply Hk; right; exact Hx).
  apply clearExpiredCaches_step_other; [|exact Hpre].
  intros x ->. apply Hk. left. reflexivity.
Qed.

Lemma string_app_inv_l (p a b : string) : (p ++ a)%string = (p ++ b)%string -> a = b.
Proof. induction p as [|c p IH]; simpl; [tauto|]. intros H. injection H. exact IH. Qed.

Lemma lookup_None_not_In k l : lookup k l = None -> ~ In k (map fst l).
Proof.
  induction l as [|[k0 v0] r IH]; simpl; [tauto|].
  destruct (String.eqb_spec k k0) as [->|Hne]; [discriminate|].
  intros H [E|Hin]; [congruence|exact (IH H Hin)].
Qed.

Lemma prefix_transaction_of_expiry k :
  String.prefix TRANSACTION_CACHE_EXPIRY_PREFIX k = true ->
  String.prefix "openrouter_transaction_" k = true.
Proof. intros H. destruct (prefix_app_inv _ _ H) as (x & ->). reflexivity. Qed.

(** ** The DEV cache *)

Lemma getItem_clearCache k st :
  getItem k (clearCache st)
  = if String.eqb CACHE_EXPIRY_KEY k || String.eqb CACHE_KEY k then None else getItem k st.
Proof.
  unfold clearCache. rewrite !lookup_removeItem.
  destruct (String.eqb CACHE_EXPIRY_KEY k), (String.eqb CACHE_KEY k); reflexivity.
Qed.

Lemma clearExpiredCaches_outside c st k :
  String.prefix "openrouter_transaction_" k = false ->
  getItem k (clearExpiredCaches c st) = getItem k st.
Proof.
  intros Hk. apply clearExpiredCaches_other.
  - intros x _ ->. rewrite prefix_cache_key in Hk. discriminate Hk.
  - destruct (String.prefix TRANSACTION_CACHE_EXPIRY_PREFIX k) eqn:E; [|reflexivity].
    rewrite (prefix_transaction_of_expiry _ E) in Hk. discriminate Hk.
Qed.

Lemma performPeriodicCleanup_outside c st k :
  String.prefix "openrouter_transaction_" k = false -> k <> lastCleanupKey ->
  getItem k (performPeriodicCleanup c st) = getItem k st.
Proof.
  intros Hk Hl. unfold performPeriodicCleanup.
  destruct (_ || _); [|reflexivity].
  destruct (setItem lastCleanupKey _ _) as [s2|] eqn:E.
  - rewrite (setItem_lookup_other _ _ _ _ _ Hl E). apply clearExpiredCaches_outside, Hk.
  - apply clearExpiredCaches_outside, Hk.
Qed.

Lemma dev_keys_differ : CACHE_KEY <> CACHE_EXPIRY_KEY.
Proof. discriminate. Qed.

Lemma setCachedData_retry_all_or_nothing c data s :
  (getItem CACHE_KEY (setCachedData_retry c data s) = Some data /\
   getItem CACHE_EXPIRY_KEY (setCachedData_retry c data s)
   = Some (string_of_Z (now c + CACHE_DURATION)))
  \/ getItem CACHE_EXPIRY_KEY (setCachedData_retry c data s) = None.
Proof.
  unfold setCachedData_retry.
  destruct (setItem CACHE_KEY data (clearCache s)) as [s2|] eqn:E2.
  - destruct (setItem CACHE_EXPIRY_KEY _ s2) as [s3|] eqn:E3.
    + left. split.
      * rewrite (setItem_lookup_other _ _ _ _ _ dev_keys_differ E3).
        exact (setItem_lookup_same _ _ _ _ E2).
      * exact (setItem_lookup_same _ _ _ _ E3).
    + right. rewrite (setItem_lookup_other _ _ _ _ _ (not_eq_sym dev_keys_differ) E2).
      rewrite getItem_clearCache. reflexivity.
  - right. rewrite getItem_clearCache. reflexivity.
Qed.

(** ** Ceiling division *)

Lemma ceil_div_spec a b : 0 < b -> b * ceil_div a b - b < a <= b * ceil_div a b.
Proof.
  intros Hb. unfold ceil_div.
  pose proof (Z.div_mod (- a) b ltac:(lia)) as Hd.
  pose proof (Z.mod_pos_bound (- a) b Hb) as Hm. nia.
Qed.

(** X1: when both dates are given and parse, [calculateWindowParam] sends
    a whole number [n] of months with [0 <= n <= 12], the same for either
    order of the dates; [n = 0] exactly when both dates are the same
    instant, [n = 1] for any other range of at most 30 days, and [n = 12]
    for every range longer than 330 days. *)
Theorem window_param_months (e : engine) (f t : string) (x y : Z) :
  String.eqb f EmptyString = false -> String.eqb t EmptyString = false ->
  date_parse e f = Some x -> date_parse e t = Some y ->
  exists n,
    calculateWindowParam e (Some f) (Some t) = (string_of_Z n ++ "mo")%string /\
    calculateWindowParam e (Some t) (Some f) = (string_of_Z n ++ "mo")%string /\
    0 <= n <= 12 /\ (n = 0 <-> x = y) /\
    (x <> y -> Z.abs (y - x) <= 30 * ms_per_day -> n = 1) /\
    (330 * ms_per_day < Z.abs (y - x) -> n = 12).
Proof.
  intros Hf Ht Hx Hy. unfold calculateWindowParam. rewrite Hf, Ht, Hx, Hy. cbn [orb].
  replace (Z.abs (x - y)) with (Z.abs (y - x)) by lia.
  set (D := Z.abs (y - x)).
  set (d := ceil_div D ms_per_day). set (m := ceil_div d 30).
  exists (Z.min m 12). split; [reflexivity|]. split; [reflexivity|].
  pose proof (ceil_div_spec D ms_per_day ltac:(unfold ms_per_day; lia)) as Hd.
  pose proof (ceil_div_spec d 30 ltac:(lia)) as Hm. fold d in Hd. fold m in Hm.
  assert (HD : 0 <= D) by (unfold D; lia).
  assert (HD0 : D = 0 <-> x = y) by (unfold D; lia).
  clearbody m d D. unfold ms_per_day in *.
  split; [lia|]. split; [lia|]. split; lia.
Qed.

Lemma window_param_months_witness :
  exists n,
    calculateWindowParam example_engine (Some "2024-01-01"%string) (Some "2024-02-01"%string)
    = (string_of_Z n ++ "mo")%string /\
    calculateWindowParam example_engine (Some "2024-02-01"%string) (Some "2024-01-01"%string)
    = (string_of_Z n ++ "mo")%string /\
    0 <= n <= 12 /\
    (n = 0 <-> days_from_civil 2024 1 1 * ms_per_day = days_from_civil 2024 2 1 * ms_per_day) /\
    (days_from_civil 2024 1 1 * ms_per_day <> days_from_civil 2024 2 1 * ms_per_day ->
     Z.abs (days_from_civil 2024 2 1 * ms_per_day - days_from_civil 2024 1 1 * ms_per_day)
       <= 30 * ms_per_day -> n = 1) /\
    (330 * ms_per_day
       < Z.abs (days_from_civil 2024 2 1 * ms_per_day - days_from_civil 2024 1 1 * ms_per_day) ->
     n = 12).
Proof.
  exact (window_param_months example_engine "2024-01-01" "2024-02-01"
           (days_from_civil 2024 1 1 * ms_per_day) (days_from_civil 2024 2 1 * ms_per_day)
           eq_refl eq_refl eq_refl eq_refl).
Defined.

(** X3: after [setCachedData c data], the DEV cache either holds [data]
    with an expiry 30 minutes after [now c], or has no expiry record at
    all (so the next [getCachedData] returns [null]): a failed write never
    leaves an earlier payload readable. *)
Theorem dev_cache_all_or_nothing (c : clock) (data : string) (st : storage) :
  (getItem CACHE_KEY (setCachedData c data st) = Some data /\
   getItem CACHE_EXPIRY_KEY (setCachedData c data st)
   = Some (string_of_Z (now c + CACHE_DURATION)))
  \/ getItem CACHE_EXPIRY_KEY (setCachedData c data st) = None.
Proof.
  unfold setCachedData.
  destruct (setItem STORAGE_TEST_KEY "test" st) as [st1|];
    [|apply setCachedData_retry_all_or_nothing].
  destruct (setItem CACHE_KEY data (removeItem STORAGE_TEST_KEY st1)) as [st3|] eqn:E3;
    [|apply setCachedData_retry_all_or_nothing].
  destruct (setItem CACHE_EXPIRY_KEY _ st3) as [st4|] eqn:E4;
    [|apply setCachedData_retry_all_or_nothing].
  left. rewrite !performPeriodicCleanup_outside by (reflexivity || discriminate).
  split.
  - rewrite (setItem_lookup_other _ _ _ _ _ dev_keys_differ E4).
    exact (setItem_lookup_same _ _ _ _ E3).
  - exact (setItem_lookup_same _ _ _ _ E4).
Qed.

Lemma json_ok_nonempty d : json_ok d = true -> String.eqb d EmptyString = false.
Proof. destruct d; [discriminate|reflexivity]. Qed.

(** X4: when [setCachedData c data] leaves an expiry record, a
    [getCachedData] at any time up to 30 minutes later returns [data],
    provided [data] is valid JSON. *)
Theorem dev_cache_round_trip (c c' : clock) (data : string) (st : storage) :
  getItem CACHE_EXPIRY_KEY (setCachedData c data st) <> None ->
  now c' <= now c + CACHE_DURATION ->
  json_ok data = true ->
  fst (getCachedData c' (setCachedData c data st)) = Some data.
Proof.
  intros Hex Hnow Hj.
  destruct (dev_cache_all_or_nothing c data st) as [[Hd He]|He]; [|contradiction].
  unfold getCachedData. rewrite He.
  unfold str_falsy, is_past. rewrite string_of_Z_nonempty, parse_int_string_of_Z.
  destruct (Z.ltb_spec (now c + CACHE_DURATION) (now c')); [lia|]. cbn [orb].
  rewrite Hd, (json_ok_nonempty _ Hj), Hj. reflexivity.
Qed.

Lemma dev_cache_round_trip_witness :
  fst (getCachedData ex_clock (setCachedData ex_clock "[1]" (mkStorage [] 100000)))
  = Some "[1]"%string.
Proof.
  apply dev_cache_round_trip; [vm_compute; discriminate | vm_compute; discriminate | reflexivity].
Defined.

(** X7: [clearExpiredCaches] removes a data entry
    [TRANSACTION_CACHE_PREFIX ++ x] only when the store holds an expiry
    record under [TRANSACTION_CACHE_EXPIRY_PREFIX ++ x].  The code names
    expiry records after the end date alone ([v2_<to>]), never after a
    whole range ([v2_<from>_to_<to>]), so the pass never removes the data
    of a range entry, even when that entry's own expiry record has expired
    (and is removed). *)
Theorem clearExpiredCaches_keeps_unpaired_data (c : clock) (st : storage) (x : string) :
  getItem (TRANSACTION_CACHE_EXPIRY_PREFIX ++ x) st = None ->
  getItem (TRANSACTION_CACHE_PREFIX ++ x) (clearExpiredCaches c st)
  = getItem (TRANSACTION_CACHE_PREFIX ++ x) st.
Proof.
  intros Hx. apply clearExpiredCaches_other; [|reflexivity].
  intros y Hin Heq. apply string_app_inv_l in Heq. subst y.
  exact (lookup_None_not_In _ _ Hx Hin).
Qed.

Lemma clearExpiredCaches_keeps_unpaired_data_witness :
  getItem ex_year_key (clearExpiredCaches ex_clock ex_expired_store) = Some "{}"%string /\
  getItem (expiryKeyOf ex_year_key) (clearExpiredCaches ex_clock ex_expired_store) = None.
Proof.
  split; [|vm_compute; reflexivity].
  change ex_year_key with (TRANSACTION_CACHE_PREFIX ++ "v2_2024-01-01_to_2024-12-31")%string.
  rewrite clearExpiredCaches_keeps_unpaired_data by (vm_compute; reflexivity).
  vm_compute. reflexivity.
Defined.

(** ** The current-month fallback *)

Lemma iso_date_of_shift (D tz : Z) :
  - ms_per_day < tz < ms_per_day ->
  iso_date_of (D * ms_per_day - tz)
  = iso_date_of ((if 0 <? tz then D - 1 else D) * ms_per_day).
Proof.
  intros Htz. unfold iso_date_of.
  replace ((if 0 <? tz then D - 1 else D) * ms_per_day / ms_per_day)
    with ((D * ms_per_day - tz) / ms_per_day); [reflexivity|].
  rewrite Z.div_mul by (unfold ms_per_day; lia).
  destruct (Z.ltb_spec 0 tz).
  - symmetry. apply Z.div_unique_pos with (ms_per_day - tz); unfold ms_per_day in *; lia.
  - symmetry. apply Z.div_unique_pos with (- tz); unfold ms_per_day in *; lia.
Qed.

(** X8: the current-month fallback of [getDateRangeKey] (and of
    [extractDefaultDateRange]) builds local midnights and formats them in
    UTC.  For a user east of UTC ([0 < tz < 1 day]) it names the day before
    the local first of the month (the last day of the previous month) and
    the day before the local last day of the month; at UTC or west of it
    ([-1 day < tz <= 0]) it names the month's first and last days. *)
Theorem month_fallback_utc_shift (t tz : Z) :
  - ms_per_day < tz < ms_per_day ->
  let '(y, m, _) := civil_from_days ((t + tz) / ms_per_day) in
  let shift := if 0 <? tz then 1 else 0 in
  month_first (clock_at t tz) = iso_date_of ((make_day y (m - 1) 1 - shift) * ms_per_day) /\
  month_last (clock_at t tz) = iso_date_of ((make_day y m 0 - shift) * ms_per_day).
Proof.
  intros Htz. unfold clock_at, month_bounds.
  destruct (civil_from_days ((t + tz) / ms_per_day)) as [[y m] d]. cbv zeta.
  cbn [month_first month_last]. unfold local_midnight.
  rewrite !iso_date_of_shift by exact Htz.
  destruct (0 <? tz); split; f_equal; lia.
Qed.

Lemma month_fallback_utc_shift_witness :
  (month_first (clock_at ex_now 3600000) = "2024-02-29"%string /\
   month_last (clock_at ex_now 3600000) = "2024-03-30"%string) /\
  (month_first (clock_at ex_now ex_tz) = "2024-03-01"%string /\
   month_last (clock_at ex_now ex_tz) = "2024-03-31"%string).
Proof.
  split.
  - exact (month_fallback_utc_shift ex_now 3600000 ltac:(unfold ms_per_day; lia)).
  - exact (month_fallback_utc_shift ex_now ex_tz ltac:(unfold ms_per_day, ex_tz; lia)).
Defined.

(** ** [fetchActivityData] *)

(** X10: a cached payload that is valid JSON but not an object or an array
    ([null], a number, a string, a boolean) is never served: with the DEV
    cache off, [fetchActivityData] sends a request, although the cache
    read ([getCachedDataByKey] or the covering scan) returned the payload. *)
Theorem fetch_rejects_non_object_cache (e : engine) (c c' : clock)
  (fromParam toParam : option string) (st : storage) (d : string) (reply : http_reply) :
  fst (getTransactionCachedData c e fromParam toParam st) = Some d ->
  (forall v, JSON_parse d = Some v -> truthy v && is_object_value v = false) ->
  fst (fst (fetchActivityData e false c c' fromParam toParam st reply))
  = Some (calculateWindowParam e fromParam toParam).
Proof.
  intros Hd Hv. unfold fetchActivityData.
  destruct (getTransactionCachedData c e fromParam toParam st) as [cd st1].
  cbn [fst] in Hd. subst cd. cbv zeta.
  destruct (String.eqb d EmptyString);
    [|destruct (JSON_parse d) as [v|] eqn:E; [rewrite (Hv v eq_refl)|]];
    destruct reply as [m|status statusText body]; try reflexivity;
    destruct (response_ok status); reflexivity.
Qed.

Lemma fetch_rejects_non_object_cache_witness :
  fst (fst (fetchActivityData example_engine false ex_clock ex_clock
              (Some "2024-03-01"%string) (Some "2024-03-31"%string)
              (mkStorage
                 [(getTransactionCacheKey ex_clock (Some "2024-03-01"%string) (Some "2024-03-31"%string),
                   "null"%string);
                  (expiryKeyOf (getTransactionCacheKey ex_clock (Some "2024-03-01"%string)
                                  (Some "2024-03-31"%string)), "999999"%string)] 100000)
              (FetchRejected "offline")))
  = Some (calculateWindowParam example_engine (Some "2024-03-01"%string) (Some "2024-03-31"%string)).
Proof.
  apply (fetch_rejects_non_object_cache _ _ _ _ _ _ "null").
  - vm_compute. reflexivity.
  - intros v Hv. vm_compute in Hv. injection Hv as <-. reflexivity.
Defined.

(** ** [processAndDisplayResults] *)

Lemma normalize_keeps_invalid_to e today fromDate s :
  date_parse e s = None -> snd (normalize_dates e today fromDate (Some s)) = Some s.
Proof.
  intros Hs. unfold normalize_dates. cbn [snd str_falsy]. rewrite Hs.
  destruct (String.eqb s EmptyString); reflexivity.
Qed.

Lemma normalize_keeps_invalid_from e today toDate s :
  date_parse e s = None -> fst (normalize_dates e today (Some s) toDate) = Some s.
Proof.
  intros Hs. unfold normalize_dates. cbn [fst].
  destruct (str_falsy (Some s) || _); [reflexivity|].
  destruct (if str_falsy toDate then toDate else _) as [t|]; [|reflexivity].
  rewrite Hs. destruct (date_parse e t); reflexivity.
Qed.

Lemma processOpenRouterResponse_invalid_bound e v fromDate toDate :
  fromDate = Some None \/ toDate = Some None ->
  processOpenRouterResponse e v fromDate toDate = zero_result.
Proof.
  intros H. assert (Hp : forall w, processJSONData e w fromDate toDate = None).
  { intros w. unfold processJSONData.
    destruct H as [-> | ->]; [reflexivity|]. destruct fromDate as [[|]|]; reflexivity. }
  unfold processOpenRouterResponse. cbv beta zeta.
  destruct v; rewrite ?Hp; try reflexivity.
  destruct (String.eqb s EmptyString); [reflexivity|].
  destruct (JSON_parse s); rewrite ?Hp; reflexivity.
Qed.

(** X11: when [fromDate] or [toDate] is a non-empty text the engine cannot
    parse, [processAndDisplayResults] ends in the error "No cost data
    found", however many transactions the response holds: the Invalid Date
    survives the normalisation, and [processJSONData] throws on it (its
    first log line calls [toISOString]), which [processOpenRouterResponse]
    turns into an empty result. *)
Theorem display_invalid_date_no_cost_data (e : engine) (today : Z) (responseData : jsval)
  (fromDate toDate : option string) (s : string) (x : jsval) (xs : list jsval) :
  fromDate = Some s \/ toDate = Some s ->
  String.eqb s EmptyString = false ->
  date_parse e s = None ->
  is_object_value responseData && truthy responseData = true ->
  extract_transactions responseData = Some (x :: xs) ->
  processAndDisplayResults e today responseData fromDate toDate
  = SendError (msg_processing_failed ++ msg_no_cost_data)%string.
Proof.
  intros Hs Hne Hp Hobj Hx. unfold processAndDisplayResults.
  assert (Hbad : requested_date e (fst (normalize_dates e today fromDate toDate)) = Some None \/
                 requested_date e (snd (normalize_dates e today fromDate toDate)) = Some None).
  { destruct Hs as [-> | ->].
    - left. rewrite normalize_keeps_invalid_from by exact Hp.
      unfold requested_date. rewrite Hne, Hp. reflexivity.
    - right. rewrite normalize_keeps_invalid_to by exact Hp.
      unfold requested_date. rewrite Hne, Hp. reflexivity. }
  destruct (normalize_dates e today fromDate toDate) as [f' t']. cbn [fst snd] in Hbad.
  apply andb_prop in Hobj as [Hobj Htr]. rewrite Htr. cbn [negb].
  rewrite (processOpenRouterResponse_invalid_bound _ _ _ _ Hbad).
  destruct responseData; try discriminate Hobj; try discriminate Htr; rewrite Hx; reflexivity.
Qed.

Lemma display_invalid_date_no_cost_data_witness :
  processAndDisplayResults example_engine (end_of_local_day ex_now ex_tz)
    (JObj [("data", JArr [ex_record "openai/gpt-4" "0.5" "10"])]%string)
    (Some "2024-13-01"%string) (Some "2024-03-10"%string)
  = SendError (msg_processing_failed ++ msg_no_cost_data)%string.
Proof.
  apply (display_invalid_date_no_cost_data _ _ _ _ _ "2024-13-01" (ex_record "openai/gpt-4" "0.5" "10") []);
    [left; reflexivity | reflexivity | reflexivity | reflexivity | reflexivity].
Defined.

(** ** The aggregation loop *)

Lemma match_unknown_eq {A} (v : jsval) (a b : A) :
  match v with JStr "unknown" => a | _ => b end = if is_unknown v then a else b.
Proof.
  destruct v as [| | | |s| |]; try reflexivity. unfold is_unknown.
  repeat match goal with |- context [match ?x with _ => _ end] => is_var x; destruct x end; reflexivity.
Qed.

Lemma process_transaction_cases e s t :
  process_transaction e s t = skip s \/
  process_transaction e s t =
    mkAgg (aggregated s) (tokensPerModel s) (S (processedItems s)) (skippedItems s) (total s) \/
  exists m c n, first_truthy t model_fields (JStr "unknown") = JStr m /\
    process_transaction e s t =
    mkAgg (dict_set (aggregated s) (model_key m)
             (add_or_zero (dict_get (aggregated s) (model_key m)) c))
          (dict_set (tokensPerModel s) (model_key m)
             (add_or_zero (dict_get (tokensPerModel s) (model_key m)) (Fin (inject_Z n))))
          (S (processedItems s)) (skippedItems s) (js_add (total s) (Fin (inject_Z n))).
Proof.
  unfold process_transaction. destruct t; try (left; reflexivity); cbv zeta;
  rewrite match_unknown_eq; destruct (is_unknown _); try (left; reflexivity);
  destruct (js_isNaN _); try (left; reflexivity);
  destruct (first_truthy _ _ _) eqn:Hm; try (left; reflexivity);
  (destruct (_ || _); [right; right; do 3 eexists; split; reflexivity
                      | right; left; reflexivity]).
Qed.

Lemma dict_put_keys k v1 v2 d1 d2 :
  map fst d1 = map fst d2 -> map fst (dict_put k v1 d1) = map fst (dict_put k v2 d2).
Proof.
  revert d2; induction d1 as [|[k1 x1] r IH]; intros [|[k2 x2] r2] H; simpl in *;
    try discriminate; [reflexivity|].
  injection H as -> H. destruct (String.eqb k k2); simpl; [congruence|].
  f_equal. apply IH; exact H.
Qed.

Lemma dict_set_keys k v1 v2 d1 d2 :
  map fst d1 = map fst d2 -> map fst (dict_set d1 k v1) = map fst (dict_set d2 k v2).
Proof.
  unfold dict_set; intros H; destruct (String.eqb k "__proto__"); [exact H|].
  apply dict_put_keys; exact H.
Qed.

Lemma aggregate_keys_agree e ts s :
  map fst (aggregated s) = map fst (tokensPerModel s) ->
  map fst (aggregated (fold_left (process_transaction e) ts s)) =
  map fst (tokensPerModel (fold_left (process_transaction e) ts s)).
Proof.
  revert s; induction ts as [|t r IH]; intros s H; simpl; [exact H|].
  apply IH. destruct (process_transaction_cases e s t) as [E|[E|(m & c & n & _ & E)]];
    rewrite E; simpl; [exact H|exact H|].
  apply dict_set_keys; exact H.
Qed.

(** X12: for every response, the cost dictionary and the token dictionary
    returned by [processOpenRouterResponse] have the same keys in the same
    order: every model written into one is written into the other. *)
Theorem costs_tokens_same_keys e v f t :
  map fst (costs (processOpenRouterResponse e v f t)) =
  map fst (tokens (processOpenRouterResponse e v f t)).
Proof.
  assert (Hj : forall w r, processJSONData e w f t = Some r -> map fst (costs r) = map fst (tokens r)).
  { intros w r. unfold processJSONData.
    destruct f as [[|]|], t as [[|]|]; try discriminate;
    destruct (extract_transactions w) as [[|t0 ts]|]; intros Hr; injection Hr as <-;
      try reflexivity; apply aggregate_keys_agree; reflexivity. }
  unfold processOpenRouterResponse.
  destruct v; try reflexivity;
  try (destruct (processJSONData e _ f t) eqn:E; [apply (Hj _ _ E)|reflexivity]).
  destruct (String.eqb s EmptyString); [reflexivity|].
  destruct (JSON_parse s); [|reflexivity].
  destruct (processJSONData e _ f t) eqn:E; [apply (Hj _ _ E)|reflexivity].
Qed.

(** ** The covering scan *)

(** X14: a hit of [findOverlappingCachedData] is a non-empty payload stored
    under a key of the store that has the transaction-cache prefix, whose
    key names a date range, and whose range covers the request. *)
Theorem overlap_hit_sound e fromDate toDate st d :
  findOverlappingCachedData e fromDate toDate st = Some d ->
  d <> EmptyString /\
  exists key f t,
    In key (storage_keys st) /\ starts_with TRANSACTION_CACHE_PREFIX key = true /\
    key_date_range key = Some (f, t) /\
    doesCacheCoverRange (date_parse e f) (date_parse e t)
      (requested_date e fromDate) (requested_date e toDate) = true /\
    getItem key st = Some d.
Proof.
  unfold findOverlappingCachedData.
  assert (G : forall ks, incl ks (storage_keys st) ->
    (fix scan (ks : list string) : option string :=
       match ks with
       | [] => None
       | key :: ks' =>
           if negb (starts_with TRANSACTION_CACHE_PREFIX key) then scan ks'
           else match key_date_range key with
                | None => scan ks'
                | Some (f, t) =>
                    if doesCacheCoverRange (date_parse e f) (date_parse e t)
                         (requested_date e fromDate) (requested_date e toDate)
                    then match getItem key st with
                         | Some d => if String.eqb d EmptyString then scan ks' else Some d
                         | None => scan ks'
                         end
                    else scan ks'
                end
       end) ks = Some d ->
    d <> EmptyString /\
    exists key f t,
      In key (storage_keys st) /\ starts_with TRANSACTION_CACHE_PREFIX key = true /\
      key_date_range key = Some (f, t) /\
      doesCacheCoverRange (date_parse e f) (date_parse e t)
        (requested_date e fromDate) (requested_date e toDate) = true /\
      getItem key st = Some d).
  { induction ks as [|k ks IH]; intros Hi H; [discriminate|].
    assert (Hr : incl ks (storage_keys st)) by (intros x Hx; apply Hi; right; exact Hx).
    destruct (starts_with TRANSACTION_CACHE_PREFIX k) eqn:Hs; simpl in H; [|exact (IH Hr H)].
    destruct (key_date_range k) as [[f t]|] eqn:Hk; [|exact (IH Hr H)].
    destruct (doesCacheCoverRange _ _ _ _) eqn:Hc; [|exact (IH Hr H)].
    destruct (getItem k st) as [d'|] eqn:Hg; [|exact (IH Hr H)].
    destruct (String.eqb d' EmptyString) eqn:He; [exact (IH Hr H)|].
    injection H as <-. split.
    - intros E; rewrite E in He; discriminate He.
    - exists k, f, t. repeat split; auto. apply Hi; left; reflexivity. }
  apply G. intros x Hx; exact Hx.
Qed.

Lemma overlap_hit_sound_witness :
  "[]"%string <> EmptyString /\
  exists key f t,
    In key (storage_keys ex_range2_store) /\
    starts_with TRANSACTION_CACHE_PREFIX key = true /\
    key_date_range key = Some (f, t) /\
    doesCacheCoverRange (date_parse example_engine f) (date_parse example_engine t)
      (requested_date example_engine (Some "2024-01-20"%string))
      (requested_date example_engine (Some "2024-01-25"%string)) = true /\
    getItem key ex_range2_store = Some "[]"%string.
Proof.
  apply (overlap_hit_sound example_engine (Some "2024-01-20"%string)
           (Some "2024-01-25"%string) ex_range2_store "[]"%string).
  vm_compute. reflexivity.
Defined.

(** ** The entry limit *)

Lemma storage_keys_removeItem k st :
  storage_keys (removeItem k st) = filter (fun x => negb (String.eqb k x)) (storage_keys st).
Proof.
  unfold storage_keys, removeItem; simpl. induction (items st) as [|[a b] r IH]; simpl;
    [reflexivity|]. destruct (String.eqb k a); simpl; rewrite IH; reflexivity.
Qed.

Lemma range_keys_clear k st :
  range_cache_keys (clearTransactionCache k st) =
  filter (fun x => negb (String.eqb k x)) (range_cache_keys st).
Proof.
  unfold range_cache_keys, clearTransactionCache.
  rewrite !storage_keys_removeItem.
  change (fun key => starts_with TRANSACTION_CACHE_PREFIX key && includes CACHE_VERSION key)
    with range_key_p.
  induction (storage_keys st) as [|x r IH]; [reflexivity|]. cbn [filter].
  destruct (String.eqb k x) eqn:Ek; destruct (String.eqb (expiryKeyOf k) x) eqn:Ex;
    destruct (range_key_p x) eqn:Px; cbn [negb filter]; rewrite ?Ek, ?Ex, ?Px;
    cbn [negb filter]; rewrite ?Ek, ?Px, ?IH; try reflexivity.
  apply String.eqb_eq in Ex. subst x. rewrite range_key_p_expiry in Px. discriminate Px.
Qed.

Lemma range_keys_fold (L : list (string * option Z)) st :
  range_cache_keys (fold_left (fun s en => clearTransactionCache (fst en) s) L st) =
  filter (fun x => negb (existsb (String.eqb x) (map fst L))) (range_cache_keys st).
Proof.
  revert st; induction L as [|[k ts] L IH]; intros st; simpl.
  - induction (range_cache_keys st) as [|x r IHr]; simpl; [reflexivity|]. f_equal; exact IHr.
  - rewrite IH, range_keys_clear.
    induction (range_cache_keys st) as [|x r IHr]; simpl; [reflexivity|].
    rewrite (String.eqb_sym k x).
    destruct (String.eqb x k); simpl; rewrite IHr; reflexivity.
Qed.

Lemma filter_split_length {A} (p : A -> bool) (l : list A) :
  (length (filter p l) + length (filter (fun x => negb (p x)) l) = length l)%nat.
Proof. induction l as [|x r IH]; simpl; [reflexivity|]. destruct (p x); simpl; lia. Qed.

Lemma existsb_eqb_In (K : list string) x : existsb (String.eqb x) K = true <-> In x K.
Proof.
  rewrite existsb_exists. split.
  - intros (y & Hy & E). apply String.eqb_eq in E. subst; exact Hy.
  - intros H. exists x; split; [exact H|apply String.eqb_refl].
Qed.

Lemma filter_notin_length (R K : list string) :
  NoDup R -> NoDup K -> incl K R ->
  (length (filter (fun x => negb (existsb (String.eqb x) K)) R) + length K = length R)%nat.
Proof.
  intros HR HK Hi.
  rewrite <- (filter_split_length (fun x => existsb (String.eqb x) K) R).
  assert (length (filter (fun x => existsb (String.eqb x) K) R) = length K); [|lia].
  apply Nat.le_antisymm; apply NoDup_incl_length.
  - apply NoDup_filter; exact HR.
  - intros x Hx. apply filter_In in Hx. apply existsb_eqb_In. apply Hx.
  - exact HK.
  - intros x Hx. apply filter_In. split; [apply Hi; exact Hx|]. apply existsb_eqb_In; exact Hx.
Qed.

Lemma insert_by_timestamp_perm x l : Permutation (insert_by_timestamp x l) (x :: l).
Proof.
  induction l as [|y r IH]; simpl; [reflexivity|].
  destruct (cmp_timestamp _ _ <? 0); [reflexivity|].
  rewrite IH. apply perm_swap.
Qed.

Lemma sort_by_timestamp_perm l : Permutation (sort_by_timestamp l) l.
Proof.
  unfold sort_by_timestamp.
  assert (G : forall acc, Permutation (fold_left (fun acc x => insert_by_timestamp x acc) l acc) (l ++ acc)).
  { induction l as [|x r IH]; intros acc; simpl; [reflexivity|].
    rewrite IH, insert_by_timestamp_perm. apply Permutation_sym, Permutation_middle. }
  rewrite G, app_nil_r. reflexivity.
Qed.

Lemma range_keys_NoDup st : NoDup (storage_keys st) -> NoDup (range_cache_keys st).
Proof. intros H; apply NoDup_filter; exact H. Qed.

(** X15: when a store with distinct keys holds [MAX_CACHE_ENTRIES] (10) or
    more versioned range entries, [enforceCacheLimit] leaves exactly 9 of
    them. *)
Theorem enforceCacheLimit_leaves_nine st :
  NoDup (storage_keys st) ->
  (MAX_CACHE_ENTRIES <= length (range_cache_keys st))%nat ->
  length (range_cache_keys (enforceCacheLimit st)) = 9%nat.
Proof.
  intros Hnd Hge. unfold enforceCacheLimit.
  apply Nat.leb_le in Hge as Hb. rewrite Hb.
  set (R := range_cache_keys st) in *.
  set (E := map _ R).
  set (n := (length R - MAX_CACHE_ENTRIES + 1)%nat).
  rewrite range_keys_fold. fold R.
  assert (HE : map fst E = R) by (unfold E; rewrite map_map; apply map_id).
  assert (HP : Permutation (map fst (sort_by_timestamp E)) R).
  { rewrite <- HE. apply Permutation_map, sort_by_timestamp_perm. }
  assert (HR : NoDup R) by (apply range_keys_NoDup; exact Hnd).
  assert (HS : NoDup (map fst (sort_by_timestamp E))).
  { apply (Permutation_NoDup (Permutation_sym HP)); exact HR. }
  rewrite <- (firstn_skipn n (sort_by_timestamp E)) in HS, HP.
  rewrite map_app in HS, HP.
  pose proof (filter_notin_length R (map fst (firstn n (sort_by_timestamp E))) HR
    (NoDup_app_remove_r _ _ HS)) as Hl.
  assert (Hlen : length (map fst (firstn n (sort_by_timestamp E))) = n).
  { rewrite length_map, length_firstn.
    rewrite (Permutation_length (sort_by_timestamp_perm E)).
    unfold E; rewrite length_map. unfold n, MAX_CACHE_ENTRIES in *. lia. }
  rewrite Hlen in Hl.
  assert (length R - 9 = n)%nat by (unfold n, MAX_CACHE_ENTRIES in *; lia).
  unfold MAX_CACHE_ENTRIES in *.
  enough (length (filter (fun x => negb (existsb (String.eqb x) (map fst (firstn n (sort_by_timestamp E))))) R) + n = length R)%nat by lia.
  apply Hl. intros x Hx. apply (Permutation_in _ HP). apply in_or_app; left; exact Hx.
Qed.

Lemma enforceCacheLimit_leaves_nine_witness :
  length (range_cache_keys (enforceCacheLimit ex_full_store)) = 9%nat.
Proof.
  apply enforceCacheLimit_leaves_nine.
  - vm_compute. repeat constructor; intros H; simpl in H; intuition discriminate.
  - apply Nat.leb_le. vm_compute. reflexivity.
Defined.

(** ** Keys of the range cache *)

(** X16: the key [getTransactionCacheKey] builds for two [YYYY-MM-DD] dates
    is read back by the key pattern of [findOverlappingCachedData] as
    exactly that range. *)
Theorem key_range_round_trip c f t :
  iso_shape f = true -> iso_shape t = true ->
  key_date_range (getTransactionCacheKey c (Some f) (Some t)) = Some (f, t).
Proof.
  intros Hf Ht.
  unfold iso_shape in Hf, Ht.
  rewrite <- (string_of_list_ascii_of_string f), <- (string_of_list_ascii_of_string t).
  destruct (list_ascii_of_string f) as [|a1 [|a2 [|a3 [|a4 [|h1 [|a5 [|a6 [|h2 [|a7 [|a8 [|]]]]]]]]]]];
    try discriminate.
  destruct (list_ascii_of_string t) as [|b1 [|b2 [|b3 [|b4 [|g1 [|b5 [|b6 [|g2 [|b7 [|b8 [|]]]]]]]]]]];
    try discriminate.
  cbn [forallb] in Hf, Ht. split_bools.
  unfold getTransactionCacheKey, getDateRangeKey, key_date_range. cbn.
  repeat match goal with H : is_digit _ = true |- _ => rewrite H; clear H end.
  reflexivity.
Qed.

Lemma key_range_round_trip_witness :
  key_date_range (getTransactionCacheKey ex_clock (Some "2024-01-01"%string)
                    (Some "2024-12-31"%string))
  = Some ("2024-01-01"%string, "2024-12-31"%string).
Proof.
  apply key_range_round_trip; reflexivity.
Defined.
